(** * s3-glacier-restore: a shallow embedding of [s3-glacier-restore.py]

    The script lists the GLACIER objects of a bucket under a prefix, asks the
    provider to restore them, and polls until every object could be copied
    back to another storage class.  The provider (boto3's S3 client) is an
    external collaborator: it is modelled as a record of transition functions
    over an abstract provider state.  The script itself is embedded in a
    writer/state/exception monad: every call to the provider, every call to
    the logger and every [time.sleep] is an event of the run, in order.

    Strings are byte strings, a [str] of the script being held as its UTF-8
    encoding; the logger's level filter is not modelled (an event [EvLog] is
    a call of a logger method, whatever the sink does). *)

From Stdlib Require Import List String Ascii Bool Arith ZArith NArith Lia.
From Stdlib Require Import DecimalString.
Import ListNotations.
Open Scope string_scope.
Open Scope list_scope.

(** ** Enumerations of the script *)

Inductive Operation := List | Restore | Transit | CheckRestore.

Inductive LogLevel := Debug | Info | Warning | Error | Critical.

Inductive Tier := Expedited | Standard | Bulk.

Inductive StorageClass :=
| SCStandard | StandardInfrequentAccess | OneZoneInfrequentAccess
| IntelligentTiering.

Definition Tier_str (t : Tier) : string :=
  match t with
  | Expedited => "Expedited"
  | Standard => "Standard"
  | Bulk => "Bulk"
  end.

Definition StorageClass_str (c : StorageClass) : string :=
  match c with
  | SCStandard => "STANDARD"
  | StandardInfrequentAccess => "STANDARD_IA"
  | OneZoneInfrequentAccess => "ONEZONE_IA"
  | IntelligentTiering => "INTELLIGENT_TIERING"
  end.

(** ** Exceptions, provider requests and responses *)

(** [ClientError] is the only exception class the script catches; the other
    constructors are the exceptions that escape every [try] of the script. *)
Inductive exn :=
| ClientError (Code Message : string)
| BotoCoreError (what : string)
| AssertionError (msg : string)
| KeyError (key : string)
| ValueError (msg : string).

Record S3Object := { Key : string; ObjStorageClass : string }.

(** A response of [list_objects_v2] is a dict in which both entries may be
    absent. *)
Record ListObjectsV2Output := {
  Contents : option (list S3Object);
  NextContinuationToken : option string
}.

(** A response of [head_object]; only the ["Restore"] entry is read. *)
Record HeadObjectOutput := { RestoreHeader : option string }.

Inductive Request :=
| ListObjectsV2 (Bucket Prefix : string) (ContinuationToken : option string)
| RestoreObject (Bucket ObjKey : string) (Days : Z) (GlacierTier : string)
| CopyObject (Bucket SrcBucket SrcKey ObjKey : string) (NewClass : string)
| HeadObject (Bucket ObjKey : string).

Inductive LogMsg := Text (s : string) | Exc (e : exn).

Inductive Event :=
| EvRequest (r : Request)
| EvLog (lvl : LogLevel) (msg : LogMsg)
| EvSleep (seconds : Z).

Definition is_request (ev : Event) : bool :=
  match ev with EvRequest _ => true | _ => false end.

Definition is_sleep (ev : Event) : bool :=
  match ev with EvSleep _ => true | _ => false end.

Definition is_list_request (ev : Event) : bool :=
  match ev with EvRequest (ListObjectsV2 _ _ _) => true | _ => false end.

Definition is_log (ev : Event) : bool :=
  match ev with EvLog _ _ => true | _ => false end.

(** The provider: each operation takes the provider's state to a new state
    and either a response or a raised exception. *)
Record S3Client (sigma : Type) := {
  list_objects_v2 :
    string -> string -> option string -> sigma ->
    sigma * (exn + ListObjectsV2Output);
  restore_object :
    string -> string -> Z -> string -> sigma -> sigma * (exn + unit);
  copy_object :
    string -> string -> string -> string -> string -> sigma ->
    sigma * (exn + unit);
  head_object :
    string -> string -> sigma -> sigma * (exn + HeadObjectOutput)
}.

Arguments list_objects_v2 {sigma}.
Arguments restore_object {sigma}.
Arguments copy_object {sigma}.
Arguments head_object {sigma}.

(** ** The monad of runs *)

Inductive Outcome (A : Type) :=
| Returned (a : A)
| Raised (e : exn)
| OutOfFuel.

Arguments Returned {A}.
Arguments Raised {A}.
Arguments OutOfFuel {A}.

Definition M (sigma A : Type) : Type :=
  sigma -> list Event * sigma * Outcome A.

Definition ret {sigma A} (a : A) : M sigma A :=
  fun s => ([], s, Returned a).

Definition bind {sigma A B} (m : M sigma A) (f : A -> M sigma B) : M sigma B :=
  fun s =>
    match m s with
    | (ev, s1, Returned a) =>
        match f a s1 with
        | (ev', s2, r) => (ev ++ ev', s2, r)
        end
    | (ev, s1, Raised e) => (ev, s1, Raised e)
    | (ev, s1, OutOfFuel) => (ev, s1, OutOfFuel)
    end.

Notation "x <- m ;; k" := (bind m (fun x => k))
  (at level 61, m at next level, right associativity).
Notation "m ;; k" := (bind m (fun _ => k))
  (at level 61, right associativity).

Definition raise {sigma A} (e : exn) : M sigma A :=
  fun s => ([], s, Raised e).

Definition out_of_fuel {sigma A} : M sigma A :=
  fun s => ([], s, OutOfFuel).

Definition emit {sigma} (ev : Event) : M sigma unit :=
  fun s => ([ev], s, Returned tt).

(** [try: m except ClientError as e: h e]: any other exception escapes. *)
Definition try_except {sigma A} (m : M sigma A)
    (h : string -> string -> M sigma A) : M sigma A :=
  fun s =>
    match m s with
    | (ev, s1, Raised (ClientError code msg)) =>
        match h code msg s1 with
        | (ev', s2, r) => (ev ++ ev', s2, r)
        end
    | r => r
    end.

(** A request to the provider: the request is an event, the provider's
    transition function gives the new state and the response. *)
Definition request {sigma A} (r : Request)
    (op : sigma -> sigma * (exn + A)) : M sigma A :=
  fun s =>
    match op s with
    | (s1, inl e) => ([EvRequest r], s1, Raised e)
    | (s1, inr a) => ([EvRequest r], s1, Returned a)
    end.

Definition log {sigma} (lvl : LogLevel) (msg : LogMsg) : M sigma unit :=
  emit (EvLog lvl msg).

(** A computation that has no effect but may raise. *)
Definition lift {sigma A} (r : exn + A) : M sigma A :=
  fun s =>
    match r with
    | inl e => ([], s, Raised e)
    | inr a => ([], s, Returned a)
    end.

(** [assert cond, msg]; the script is run without [-O], so assertions are
    executed. *)
Definition assert {sigma} (cond : bool) (msg : string) : M sigma unit :=
  if cond then ret tt else raise (AssertionError msg).

(** [time.sleep(seconds)]: a negative length raises [ValueError].  A length
    above 9223372036 seconds, which CPython refuses with [OverflowError], is
    let through here as any other: the theorems that conclude that the loop
    goes on after a sleep carry that bound on the interval. *)
Definition sleep {sigma} (seconds : Z) : M sigma unit :=
  if (seconds <? 0)%Z
  then raise (ValueError "sleep length must be non-negative")
  else emit (EvSleep seconds).

Definition events {sigma A} (r : list Event * sigma * Outcome A) : list Event :=
  fst (fst r).

Definition final {sigma A} (r : list Event * sigma * Outcome A) : sigma :=
  snd (fst r).

Definition outcome {sigma A} (r : list Event * sigma * Outcome A) : Outcome A :=
  snd r.

(** The exit status of the process: an uncaught exception ends it with
    status 1; a run that is still going has none. *)
Definition exit_status {A} (o : Outcome A) : option Z :=
  match o with
  | Returned _ => Some 0%Z
  | Raised _ => Some 1%Z
  | OutOfFuel => None
  end.

(** ** Text of the log messages *)

Definition dq : string := String "034"%char EmptyString.

Definition quoted (s : string) : string := (dq ++ s ++ dq)%string.

Definition str_int (n : Z) : string := NilZero.string_of_int (Z.to_int n).

(** The f-strings of the script. *)
Definition msg_restoring (key : string) : LogMsg :=
  Text ("Restoring " ++ quoted key)%string.

Definition msg_restore_sent (key : string) : LogMsg :=
  Text ("Successfully sent Restore request for " ++ quoted key)%string.

Definition msg_continuing : LogMsg :=
  Text "Continuing because `continue_on_other_errors` is set to `True`".

Definition msg_skipping (key : string) : LogMsg :=
  Text ("Skipping " ++ quoted key ++
        " because it it no longer a GLACIER object")%string.

Definition msg_transiting (key : string) (sc : StorageClass) : LogMsg :=
  Text ("Transiting " ++ quoted key ++ " back to storage class [" ++
        StorageClass_str sc ++ "]")%string.

Definition msg_transited (key : string) : LogMsg :=
  Text ("Transiting " ++ quoted key ++ " successful!")%string.

Definition msg_restore_status (key status : string) : LogMsg :=
  Text ("Restore status for " ++ key ++ ": " ++ status)%string.

Definition msg_days (d : Z) : LogMsg :=
  Text ("Restore retrieval days: " ++ str_int d)%string.

(** ** Command-line arguments, as [argparse] hands them over *)

Record Args := {
  op : Operation;
  bucket : string;
  prefix : option string;
  log_level : LogLevel;
  days : option string;
  tier : option Tier;
  storage_class : option StorageClass;
  poll_seconds : Z
}.

(** ** The strings of the command line

    A [str] is held as its UTF-8 encoding, which is how the arguments reach
    the interpreter.  [str.isdigit] and [int] read code points: the two
    tables below are those of the Unicode database of CPython 3.11 (Unicode
    14.0.0), as runs of consecutive code points [(first, count)]. *)

Definition byte (c : ascii) : N := N_of_ascii c.

Definition is_continuation (c : ascii) : bool :=
  ((128 <=? byte c) && (byte c <? 192))%N.

Definition low6 (c : ascii) : N := (byte c - 128)%N.

(** The code points of a string; [None] when the bytes are not the UTF-8
    encoding of a sequence of code points (a stray or missing continuation
    byte, an overlong form, a surrogate, a value above U+10FFFF).  Python
    decodes such bytes to lone surrogates, which are no digits. *)
Fixpoint code_points (s : string) : option (list N) :=
  match s with
  | EmptyString => Some []
  | String b0 r0 =>
      if (byte b0 <? 128)%N then
        option_map (cons (byte b0)) (code_points r0)
      else if (byte b0 <? 224)%N then
        match r0 with
        | String b1 r1 =>
            let cp := ((byte b0 - 192) * 64 + low6 b1)%N in
            if (192 <=? byte b0)%N && is_continuation b1 && (128 <=? cp)%N
            then option_map (cons cp) (code_points r1)
            else None
        | EmptyString => None
        end
      else if (byte b0 <? 240)%N then
        match r0 with
        | String b1 (String b2 r2) =>
            let cp := ((byte b0 - 224) * 4096 + low6 b1 * 64 + low6 b2)%N in
            if is_continuation b1 && is_continuation b2 && (2048 <=? cp)%N
               && negb ((55296 <=? cp) && (cp <=? 57343))%N
            then option_map (cons cp) (code_points r2)
            else None
        | _ => None
        end
      else
        match r0 with
        | String b1 (String b2 (String b3 r3)) =>
            let cp := ((byte b0 - 240) * 262144 + low6 b1 * 4096
                       + low6 b2 * 64 + low6 b3)%N in
            if is_continuation b1 && is_continuation b2 && is_continuation b3
               && (65536 <=? cp)%N && (cp <=? 1114111)%N
            then option_map (cons cp) (code_points r3)
            else None
        | _ => None
        end
  end.

(** The decimal digits (Numeric_Type=Decimal): in each run the digits
    0 to 9 follow one another, so the value of a code point is its offset
    in its run modulo ten. *)
Definition decimal_runs : list (N * N) :=
  [(48, 10); (1632, 10); (1776, 10); (1984, 10); (2406, 10); (2534, 10);
   (2662, 10); (2790, 10); (2918, 10); (3046, 10); (3174, 10); (3302, 10);
   (3430, 10); (3558, 10); (3664, 10); (3792, 10); (3872, 10); (4160, 10);
   (4240, 10); (6112, 10); (6160, 10); (6470, 10); (6608, 10); (6784, 10);
   (6800, 10); (6992, 10); (7088, 10); (7232, 10); (7248, 10); (42528, 10);
   (43216, 10); (43264, 10); (43472, 10); (43504, 10); (43600, 10);
   (44016, 10); (65296, 10); (66720, 10); (68912, 10); (69734, 10);
   (69872, 10); (69942, 10); (70096, 10); (70384, 10); (70736, 10);
   (70864, 10); (71248, 10); (71360, 10); (71472, 10); (71904, 10);
   (72016, 10); (72784, 10); (73040, 10); (73120, 10); (92768, 10);
   (92864, 10); (93008, 10); (120782, 50); (123200, 10); (123632, 10);
   (125264, 10); (130032, 10)]%N.

(** The other digit characters (Numeric_Type=Digit): superscripts,
    subscripts, circled digits and the like.  [str.isdigit] accepts them,
    [int] does not. *)
Definition other_digit_runs : list (N * N) :=
  [(178, 2); (185, 1); (4969, 9); (6618, 1); (8304, 1); (8308, 6);
   (8320, 10); (9312, 9); (9332, 9); (9352, 9); (9450, 1); (9461, 9);
   (9471, 1); (10102, 9); (10112, 9); (10122, 9); (68160, 4); (69216, 9);
   (69714, 9); (127232, 11)]%N.

Definition in_run (c : N) (run : N * N) : bool :=
  ((fst run <=? c) && (c <? fst run + snd run))%N.

(** [unicodedata.decimal] *)
Definition decimal_value (c : N) : option N :=
  match find (in_run c) decimal_runs with
  | Some run => Some ((c - fst run) mod 10)%N
  | None => None
  end.

Definition is_decimal_point (c : N) : bool :=
  existsb (in_run c) decimal_runs.

Definition is_digit_point (c : N) : bool :=
  is_decimal_point c || existsb (in_run c) other_digit_runs.

(** [str.isdigit]: at least one character, and digit characters only. *)
Definition str_isdigit (s : string) : bool :=
  match code_points s with
  | Some (c :: cs) => forallb is_digit_point (c :: cs)
  | _ => false
  end.

(** The number a sequence of decimal digits denotes. *)
Definition number_of (cps : list N) : Z :=
  fold_left
    (fun acc c =>
       (10 * acc + match decimal_value c with
                   | Some v => Z.of_N v
                   | None => 0
                   end)%Z)
    cps 0%Z.

Fixpoint leading_decimals (cps : list N) : nat :=
  match cps with
  | [] => 0
  | c :: rest =>
      if is_decimal_point c then S (leading_decimals rest) else 0
  end.

(** The first [n] characters of a string. *)
Fixpoint take_points (n : nat) (s : string) : string :=
  match s with
  | EmptyString => EmptyString
  | String b rest =>
      if is_continuation b then String b (take_points n rest)
      else match n with
           | O => EmptyString
           | S n' => String b (take_points n' rest)
           end
  end.

(** The messages of the two [ValueError]s of [int]; the first carries the
    [repr] of the string cut at 200 characters, and the [repr] of a string
    of digit characters is the string between single quotes. *)
Definition invalid_literal (s : string) : string :=
  ("invalid literal for int() with base 10: "
   ++ take_points 200 ("'" ++ s ++ "'"))%string.

Definition over_the_limit (digits : nat) : string :=
  ("Exceeds the limit (4300 digits) for integer string conversion: value has "
   ++ NilZero.string_of_int (Z.to_int (Z.of_nat digits))
   ++ " digits; use sys.set_int_max_str_digits() to increase the limit")%string.

(** [int(s)] for a string of digit characters, the only strings the script
    hands to it (signs, blanks and underscores, which [int] also reads, are
    no digit characters).  The decimal digits at the head of the string are
    counted first: above the default limit of 4300 the conversion is
    refused; otherwise a character that is not a decimal digit makes the
    literal invalid. *)
Definition int_of_str (s : string) : exn + Z :=
  match code_points s with
  | None => inl (ValueError (invalid_literal s))
  | Some cps =>
      let n := leading_decimals cps in
      if (4300 <? n)%nat then inl (ValueError (over_the_limit n))
      else if ((n =? List.length cps) && (0 <? n))%nat
           then inr (number_of cps)
           else inl (ValueError (invalid_literal s))
  end.

(** [args.days and str.isdigit(args.days)]: [None] and the empty string are
    falsy. *)
Definition days_accepted (d : option string) : bool :=
  match d with
  | None => false
  | Some s => negb (s =? "")%string && str_isdigit s
  end.

(** [args.prefix if args.prefix else ""] *)
Definition prefix_or_empty (p : option string) : string :=
  match p with
  | Some p => if (p =? "")%string then "" else p
  | None => ""
  end.

Definition is_some {A} (o : option A) : bool :=
  match o with Some _ => true | None => false end.

(** ** The script *)

Section Script.

Context {sigma : Type}.
Variable s3 : S3Client sigma.

Definition call_list_objects_v2 (bucket prefix : string)
    (kwargs : option string) : M sigma ListObjectsV2Output :=
  request (ListObjectsV2 bucket prefix kwargs)
          (list_objects_v2 s3 bucket prefix kwargs).

Definition call_restore_object (bucket key : string) (days : Z) (tier : Tier)
  : M sigma unit :=
  request (RestoreObject bucket key days (Tier_str tier))
          (restore_object s3 bucket key days (Tier_str tier)).

Definition call_copy_object (bucket key : string) (sc : StorageClass)
  : M sigma unit :=
  request (CopyObject bucket bucket key key (StorageClass_str sc))
          (copy_object s3 bucket bucket key key (StorageClass_str sc)).

Definition call_head_object (bucket key : string) : M sigma HeadObjectOutput :=
  request (HeadObject bucket key) (head_object s3 bucket key).

(** *** [list_objects]

    The function opens a client of its own ([s3 = boto3.client("s3")]) in
    place of the one it is handed; both talk to the same provider, whose
    state is the state of the run. *)

(** The [for obj in rsp["Contents"]] loop; [keys] is the list being
    appended to. *)
Fixpoint collect_keys (glacier print : bool) (objs : list S3Object)
    (keys : list string) : M sigma (list string) :=
  match objs with
  | [] => ret keys
  | obj :: rest =>
      let key := Key obj in
      if glacier then
        if ObjStorageClass obj =? "GLACIER" then
          (if print then log Debug (Text key) else ret tt);;
          collect_keys glacier print rest (keys ++ [key])
        else collect_keys glacier print rest keys
      else
        (if print then log Debug (Text key) else ret tt);;
        collect_keys glacier print rest (keys ++ [key])
  end.

(** The [while is_continuing] loop; [kwargs] holds the continuation token
    once one was received. *)
Fixpoint list_objects_loop (fuel : nat) (bucket prefix : string)
    (glacier print : bool) (kwargs : option string) (keys : list string)
  : M sigma (list string) :=
  match fuel with
  | O => out_of_fuel
  | S fuel' =>
      rsp <- call_list_objects_v2 bucket prefix kwargs;;
      keys' <- match Contents rsp with
               | Some objs => collect_keys glacier print objs keys
               | None => ret keys
               end;;
      match NextContinuationToken rsp with
      | Some continuation_token =>
          list_objects_loop fuel' bucket prefix glacier print
                            (Some continuation_token) keys'
      | None => ret keys'
      end
  end.

Definition list_objects (fuel : nat) (bucket prefix : string)
    (glacier print : bool) : M sigma (list string) :=
  list_objects_loop fuel bucket prefix glacier print None [].

(** *** [restore_glacier_objects] *)

Definition restore_impl (bucket key : string) (days : Z) (tier : Tier)
  : M sigma unit :=
  log Debug (msg_restoring key);;
  call_restore_object bucket key days tier;;
  log Debug (msg_restore_sent key).

Definition restore_handler (continue_on_other_errors : bool)
    (code msg : string) : M sigma unit :=
  if code =? "RestoreAlreadyInProgress" then
    log Warning (Exc (ClientError code msg))
  else if continue_on_other_errors then
    log Error (Exc (ClientError code msg));;
    log Warning msg_continuing
  else raise (ClientError code msg).

Fixpoint restore_glacier_objects (bucket : string) (keys : list string)
    (days : Z) (tier : Tier)
    (continue_on_restore_already_in_progress : bool)
    (continue_on_other_errors : bool) : M sigma unit :=
  match keys with
  | [] => ret tt
  | key :: rest =>
      (if continue_on_restore_already_in_progress then
         try_except (restore_impl bucket key days tier)
                    (restore_handler continue_on_other_errors)
       else restore_impl bucket key days tier);;
      restore_glacier_objects bucket rest days tier
        continue_on_restore_already_in_progress continue_on_other_errors
  end.

(** *** [transit_glacier_objects] *)

(** The body of the [try] for one key. *)
Definition transit_try (bucket : string) (storage_class : StorageClass)
    (key : string) : M sigma unit :=
  rsp <- call_list_objects_v2 bucket key None;;
  contents <- match Contents rsp with
              | Some objs => ret objs
              | None => raise (KeyError "Contents")
              end;;
  assert (List.length contents =? 1)%nat "";;
  match contents with
  | [] => raise (KeyError "0") (* not reached: the assertion failed *)
  | obj :: _ =>
      if negb (ObjStorageClass obj =? "GLACIER") then
        log Debug (msg_skipping key)
      else
        log Debug (msg_transiting key storage_class);;
        call_copy_object bucket key storage_class;;
        log Debug (msg_transited key)
  end.

(** One iteration of [for key in keys]: the flag
    [has_at_least_one_untransited] goes in and comes out. *)
Definition transit_key (bucket : string) (storage_class : StorageClass)
    (key : string) (has_at_least_one_untransited : bool) : M sigma bool :=
  try_except
    (transit_try bucket storage_class key;;
     ret has_at_least_one_untransited)
    (fun code msg =>
       if code =? "InvalidObjectState" then
         log Warning (Exc (ClientError code msg));;
         ret true
       else raise (ClientError code msg)).

Fixpoint transit_keys (bucket : string) (storage_class : StorageClass)
    (keys : list string) (has_at_least_one_untransited : bool)
  : M sigma bool :=
  match keys with
  | [] => ret has_at_least_one_untransited
  | key :: rest =>
      flag <- transit_key bucket storage_class key
                          has_at_least_one_untransited;;
      transit_keys bucket storage_class rest flag
  end.

Definition transit_once (bucket : string) (storage_class : StorageClass)
    (keys : list string) : M sigma bool :=
  transit_keys bucket storage_class keys false.

(** The [while True] loop: one unit of fuel is one poll cycle. *)
Fixpoint transit_glacier_objects (fuel : nat) (bucket : string)
    (keys : list string) (storage_class : StorageClass) (poll_seconds : Z)
  : M sigma unit :=
  match fuel with
  | O => out_of_fuel
  | S fuel' =>
      has_at_least_one_untransited <- transit_once bucket storage_class keys;;
      if negb has_at_least_one_untransited then ret tt
      else
        sleep poll_seconds;;
        transit_glacier_objects fuel' bucket keys storage_class poll_seconds
  end.

(** *** [check_restore_status]

    Here too the function opens its own client. *)

Definition check_restore_status (bucket key : string) : M sigma unit :=
  rsp <- call_head_object bucket key;;
  match RestoreHeader rsp with
  | Some status =>
      log Debug (msg_restore_status key status)
  | None => ret tt
  end.

(** *** The [__main__] block *)

Fixpoint check_all (bucket : string) (keys : list string) : M sigma unit :=
  match keys with
  | [] => ret tt
  | key :: rest =>
      check_restore_status bucket key;;
      check_all bucket rest
  end.

(** The lines shared by the [restore] and [transit] branches: both
    assertions on [--days] and [--tier] and their debug lines. *)
Definition days_and_tier (args : Args) : M sigma (Z * Tier) :=
  assert (days_accepted (days args)) "--days must be set to an integer";;
  d <- match days args with
       | Some s => lift (int_of_str s)
       | None => raise (ValueError "") (* not reached: the assertion failed *)
       end;;
  log Debug (msg_days d);;
  assert (is_some (tier args)) "--tier must be set";;
  match tier args with
  | None => raise (AssertionError "--tier must be set")
  | Some t =>
      log Debug (Text ("Restore retrieval tier: " ++ Tier_str t)%string);;
      ret (d, t)
  end.

Definition main (fuel : nat) (args : Args) : M sigma unit :=
  let bucket := bucket args in
  log Debug (Text ("Bucket: " ++ bucket)%string);;
  let prefix := prefix_or_empty (prefix args) in
  log Debug (Text ("Prefix: " ++ prefix)%string);;
  match op args with
  | List =>
      list_objects fuel bucket prefix true true;;
      log Info (Text "Done listing Glacier objects!")
  | Restore =>
      dt <- days_and_tier args;;
      keys <- list_objects fuel bucket prefix true false;;
      restore_glacier_objects bucket keys (fst dt) (snd dt) true true;;
      log Info (Text "Done listing and restoring Glacier objects!")
  | Transit =>
      dt <- days_and_tier args;;
      assert (is_some (storage_class args)) "--storage-class must be set";;
      match storage_class args with
      | None => raise (AssertionError "--storage-class must be set")
      | Some sc =>
          log Debug (Text ("Transit storage class: " ++
                           StorageClass_str sc)%string);;
          keys <- list_objects fuel bucket prefix true false;;
          restore_glacier_objects bucket keys (fst dt) (snd dt) true true;;
          transit_glacier_objects fuel bucket keys sc (poll_seconds args);;
          log Info
            (Text "Done listing, restoring and transiting Glacier objects!")
      end
  | CheckRestore =>
      keys <- list_objects fuel bucket prefix false false;;
      check_all bucket keys
  end.

End Script.

(** ** An in-memory provider

    A bucket held in memory, used to run the script on concrete inputs.  Each
    entry carries the number of copy attempts the provider will still refuse
    with [InvalidObjectState] (the restore is not complete yet) and whether a
    restore was requested.  Listings are cut into pages of [max_keys] entries;
    a continuation token is a string whose length is the offset of the next
    page. *)

Module Fake.

Record Entry := {
  ekey : string;
  eclass : string;
  epending : nat;
  erestoring : bool;
  edenied : bool
}.

Record Store := {
  bucket_name : string;
  entries : list Entry;
  max_keys : nat
}.

Definition with_entries (st : Store) (es : list Entry) : Store :=
  {| bucket_name := bucket_name st; entries := es; max_keys := max_keys st |}.

Definition to_object (e : Entry) : S3Object :=
  {| Key := ekey e; ObjStorageClass := eclass e |}.

Fixpoint token_of (n : nat) : string :=
  match n with
  | O => EmptyString
  | S n' => String "x"%char (token_of n')
  end.

Definition matching (pfx : string) (es : list Entry) : list Entry :=
  filter (fun e => String.prefix pfx (ekey e)) es.

Definition no_such_bucket : exn :=
  ClientError "NoSuchBucket" "The specified bucket does not exist".

Definition no_such_key : exn :=
  ClientError "NoSuchKey" "The specified key does not exist.".

Definition list_objects_v2 (bucket pfx : string) (token : option string)
    (st : Store) : Store * (exn + ListObjectsV2Output) :=
  if negb (bucket =? bucket_name st)%string then (st, inl no_such_bucket)
  else
    let all := matching pfx (entries st) in
    let start := match token with
                 | Some t => String.length t
                 | None => 0
                 end in
    let page := firstn (max_keys st) (skipn start all) in
    (st, inr {| Contents := match page with
                            | [] => None
                            | _ => Some (map to_object page)
                            end;
                NextContinuationToken :=
                  if (start + max_keys st <? List.length all)%nat
                  then Some (token_of (start + max_keys st))
                  else None |}).

(** Apply [f] to the first entry named [key]; [None] when there is none. *)
Fixpoint update (key : string) (f : Entry -> exn + Entry) (es : list Entry)
  : option (list Entry * option exn) :=
  match es with
  | [] => None
  | e :: rest =>
      if (ekey e =? key)%string then
        match f e with
        | inl err => Some (es, Some err)
        | inr e' => Some (e' :: rest, None)
        end
      else
        match update key f rest with
        | Some (rest', r) => Some (e :: rest', r)
        | None => None
        end
  end.

Definition apply (bucket key : string) (f : Entry -> exn + Entry)
    (st : Store) : Store * (exn + unit) :=
  if negb (bucket =? bucket_name st)%string then (st, inl no_such_bucket)
  else
    match update key f (entries st) with
    | None => (st, inl no_such_key)
    | Some (es, Some err) => (with_entries st es, inl err)
    | Some (es, None) => (with_entries st es, inr tt)
    end.

Definition restore_object (bucket key : string) (days : Z) (tier : string)
  : Store -> Store * (exn + unit) :=
  apply bucket key (fun e =>
    if erestoring e then
      inl (ClientError "RestoreAlreadyInProgress"
                       "Object restore is already in progress")
    else if negb (eclass e =? "GLACIER")%string then
      inl (ClientError "InvalidObjectState"
                       "Restore is not allowed for the object's storage class")
    else inr {| ekey := ekey e; eclass := eclass e;
                epending := epending e; erestoring := true;
                edenied := edenied e |}).

(** A refused copy uses up one of the entry's pending attempts; the state
    handed back with the error is the one with the attempt counted.  Once
    the restore is complete, an entry the caller may not copy is refused
    with [AccessDenied]. *)
Fixpoint copy_entries (key cls : string) (es : list Entry)
  : option (list Entry * option exn) :=
  match es with
  | [] => None
  | e :: rest =>
      if (ekey e =? key)%string then
        if (eclass e =? "GLACIER")%string then
          match epending e with
          | S n =>
              Some ({| ekey := ekey e; eclass := eclass e; epending := n;
                       erestoring := erestoring e;
                       edenied := edenied e |} :: rest,
                    Some (ClientError "InvalidObjectState"
                            "Operation is not valid for the source object's storage class"))
          | O =>
              if edenied e then
                Some (es, Some (ClientError "AccessDenied" "Access Denied"))
              else
                Some ({| ekey := ekey e; eclass := cls; epending := 0;
                         erestoring := false;
                         edenied := false |} :: rest, None)
          end
        else
          Some ({| ekey := ekey e; eclass := cls; epending := epending e;
                   erestoring := false; edenied := edenied e |} :: rest, None)
      else
        match copy_entries key cls rest with
        | Some (rest', r) => Some (e :: rest', r)
        | None => None
        end
  end.

Definition copy_object (bucket src_bucket src_key key cls : string)
    (st : Store) : Store * (exn + unit) :=
  if negb (bucket =? bucket_name st)%string then (st, inl no_such_bucket)
  else
    match copy_entries src_key cls (entries st) with
    | None => (st, inl no_such_key)
    | Some (es, Some err) => (with_entries st es, inl err)
    | Some (es, None) => (with_entries st es, inr tt)
    end.

Definition head_object (bucket key : string) (st : Store)
  : Store * (exn + HeadObjectOutput) :=
  if negb (bucket =? bucket_name st)%string then (st, inl no_such_bucket)
  else
    match find (fun e => (ekey e =? key)%string) (entries st) with
    | None => (st, inl (ClientError "404" "Not Found"))
    | Some e =>
        (st, inr {| RestoreHeader :=
                      if erestoring e then Some "ongoing-request=true"
                      else None |})
    end.

Definition client : S3Client Store :=
  Build_S3Client Store list_objects_v2 restore_object copy_object head_object.

Definition glacier (key : string) (pending : nat) : Entry :=
  {| ekey := key; eclass := "GLACIER"; epending := pending;
     erestoring := false; edenied := false |}.

Definition denied (key : string) (pending : nat) : Entry :=
  {| ekey := key; eclass := "GLACIER"; epending := pending;
     erestoring := false; edenied := true |}.

Definition standard (key : string) : Entry :=
  {| ekey := key; eclass := "STANDARD"; epending := 0; erestoring := false;
     edenied := false |}.

(** The refusals the provider still has in store for [key]. *)
Definition pending_in (key : string) (es : list Entry) : nat :=
  match find (fun e => (ekey e =? key)%string) es with
  | Some e => epending e
  | None => 0
  end.

Definition pending_of (key : string) (st : Store) : nat :=
  pending_in key (entries st).

End Fake.

(** The bucket of the two-key scenario: the first key is refused once, the
    second is ready at once. *)
Definition two_keys : Fake.Store :=
  {| Fake.bucket_name := "b";
     Fake.entries := [Fake.glacier "logs/a" 1; Fake.glacier "logs/b" 0];
     Fake.max_keys := 1000 |}.

(** A bucket in which one key of the batch is already back in STANDARD. *)
Definition half_done : Fake.Store :=
  {| Fake.bucket_name := "b";
     Fake.entries := [Fake.standard "logs/a"; Fake.glacier "logs/b" 0];
     Fake.max_keys := 1000 |}.

(** A bucket whose second key is refused once and may then not be copied. *)
Definition denied_key : Fake.Store :=
  {| Fake.bucket_name := "b";
     Fake.entries := [Fake.glacier "logs/a" 0; Fake.denied "logs/b" 1;
                      Fake.glacier "logs/c" 0];
     Fake.max_keys := 1000 |}.


(** ** Vocabulary of the statements *)

Section Vocabulary.

Context {sigma : Type}.
Variable s3 : S3Client sigma.
Variable bucket : string.

(** The request by which the poller re-lists one key. *)
Definition relist (key : string) : Event :=
  EvRequest (ListObjectsV2 bucket key None).

Definition copy_request (key : string) (sc : StorageClass) : Event :=
  EvRequest (CopyObject bucket bucket key key (StorageClass_str sc)).

Definition restore_request (key : string) (d : Z) (t : Tier) : Event :=
  EvRequest (RestoreObject bucket key d (Tier_str t)).

(** What one key costs when the provider answers its restore request with
    [RestoreAlreadyInProgress] and message [msg]. *)
Definition conflict_round (d : Z) (t : Tier) (km : string * string)
  : list Event :=
  [EvLog Debug (msg_restoring (fst km)); restore_request (fst km) d t;
   EvLog Warning (Exc (ClientError "RestoreAlreadyInProgress" (snd km)))].

(** The objects a listing response carries: none when ["Contents"] is
    absent. *)
Definition objects_of (rsp : ListObjectsV2Output) : list S3Object :=
  match Contents rsp with
  | Some objs => objs
  | None => []
  end.

Variable storage_class : StorageClass.
Variable keys : list string.
Variable poll_seconds : Z.

(** [pending_cycles n s evs s']: from provider state [s], [n] poll cycles
    in a row ended with at least one key pending and were each followed by
    the sleep; [evs] are their events and [s'] is the state after the last
    sleep. *)
Inductive pending_cycles : nat -> sigma -> list Event -> sigma -> Prop :=
| pending_none s : pending_cycles 0 s [] s
| pending_more n s ev s1 evs s2 :
    transit_once s3 bucket storage_class keys s = (ev, s1, Returned true) ->
    (poll_seconds <? 0)%Z = false ->
    pending_cycles n s1 evs s2 ->
    pending_cycles (S n) s (ev ++ EvSleep poll_seconds :: evs) s2.

(** [attempt_fails key s s' e ev]: the transition attempt for [key] from
    state [s] ends with the provider raising [e], either on the re-listing
    or on the copy; [ev] are the events of the attempt and [s'] the state
    the provider is left in. *)
Inductive attempt_fails (key : string)
  : sigma -> sigma -> exn -> list Event -> Prop :=
| fails_listing s s' e :
    list_objects_v2 s3 bucket key None s = (s', inl e) ->
    attempt_fails key s s' e [relist key]
| fails_copy s s1 rsp obj s' e :
    list_objects_v2 s3 bucket key None s = (s1, inr rsp) ->
    Contents rsp = Some [obj] ->
    ObjStorageClass obj = "GLACIER" ->
    copy_object s3 bucket bucket key key (StorageClass_str storage_class) s1
      = (s', inl e) ->
    attempt_fails key s s' e
      [relist key; EvLog Debug (msg_transiting key storage_class);
       copy_request key storage_class].

(** [paged prefix token s pages s']: asked for [prefix] with [token] in
    state [s], and then with each continuation token it hands out, the
    provider answers with the pages [pages], the last one without a
    continuation token, and is left in state [s']. *)
Inductive paged (prefix : string)
  : option string -> sigma -> list (list S3Object) -> sigma -> Prop :=
| paged_last token s s' rsp :
    list_objects_v2 s3 bucket prefix token s = (s', inr rsp) ->
    NextContinuationToken rsp = None ->
    paged prefix token s [objects_of rsp] s'
| paged_more token s s1 rsp next pages s' :
    list_objects_v2 s3 bucket prefix token s = (s1, inr rsp) ->
    NextContinuationToken rsp = Some next ->
    paged prefix (Some next) s1 pages s' ->
    paged prefix token s (objects_of rsp :: pages) s'.

End Vocabulary.

(** The footprint of a key that reports "invalid object state": the
    warning by which the poller logs the caught exception. *)
Definition reports_pending (ev : Event) : bool :=
  match ev with
  | EvLog Warning (Exc (ClientError code _)) =>
      (code =? "InvalidObjectState")%string
  | _ => false
  end.

(** The refusals still to come for a batch, given a bound [pend key s] for
    each key. *)
Definition total_pending {sigma} (pend : string -> sigma -> nat)
    (keys : list string) (s : sigma) : nat :=
  list_sum (map (fun key => pend key s) keys).

Definition has_prefix (p : string) (obj : S3Object) : bool :=
  String.prefix p (Key obj).

Definition is_archived (obj : S3Object) : bool :=
  (ObjStorageClass obj =? "GLACIER")%string.

(** The keys the enumerator keeps of a list of object records. *)
Definition selected (glacier : bool) (objs : list S3Object) : list string :=
  map Key (if glacier then filter is_archived objs else objs).

(** The two debug lines every run of the script starts with. *)
Definition prelude (args : Args) : list Event :=
  [EvLog Debug (Text ("Bucket: " ++ bucket args)%string);
   EvLog Debug (Text ("Prefix: " ++ prefix_or_empty (prefix args))%string)].

(** A bucket listed in pages of two. *)
Definition five_logs : Fake.Store :=
  {| Fake.bucket_name := "b";
     Fake.entries := [Fake.glacier "logs/a" 0; Fake.standard "logs/b";
                      Fake.glacier "other/x" 0; Fake.glacier "logs/c" 0;
                      Fake.glacier "logs/d" 0; Fake.standard "logs/e"];
     Fake.max_keys := 2 |}.

Definition restore_args (d : option string) : Args :=
  {| op := Restore; bucket := "b"; prefix := Some "logs/";
     log_level := Debug; days := d; tier := Some Standard;
     storage_class := None; poll_seconds := 3600 |}.

(** [digit_string ds cps]: [ds] is a non-empty string of digit characters,
    of any script, whose code points are [cps]. *)
Definition digit_string (ds : string) (cps : list N) : Prop :=
  code_points ds = Some cps /\ cps <> []
  /\ Forall (fun c => is_digit_point c = true) cps.

(** [decimal_string ds cps]: [ds] is a non-empty string of at most 4300
    decimal digits, of any script, whose code points are [cps]; the number
    it denotes is [number_of cps]. *)
Definition decimal_string (ds : string) (cps : list N) : Prop :=
  code_points ds = Some cps /\ cps <> []
  /\ Forall (fun c => is_decimal_point c = true) cps
  /\ List.length cps <= 4300.

(** SUPERSCRIPT TWO (U+00B2), ARABIC-INDIC DIGIT THREE (U+0663) and a run
    of 4301 ones. *)
Definition superscript_two : string :=
  String "194"%char (String "178"%char EmptyString).

Definition arabic_three : string :=
  String "217"%char (String "163"%char EmptyString).

Fixpoint ones (n : nat) : string :=
  match n with
  | O => EmptyString
  | S n' => String "1"%char (ones n')
  end.

(** ** Vocabulary of the further properties *)

(** The requests of a run, in order. *)
Fixpoint requests_of (evs : list Event) : list Request :=
  match evs with
  | [] => []
  | EvRequest r :: rest => r :: requests_of rest
  | _ :: rest => requests_of rest
  end.

Definition is_client_error (e : exn) : bool :=
  match e with ClientError _ _ => true | _ => false end.

(** The two requests the poller makes for a key of its batch. *)
Definition poller_request (bucket : string) (sc : StorageClass)
    (keys : list string) (r : Request) : Prop :=
  exists key,
    In key keys /\
    (r = ListObjectsV2 bucket key None \/
     r = CopyObject bucket bucket key key (StorageClass_str sc)).

Definition is_listing_of (bucket prefix : string) (r : Request) : Prop :=
  exists token, r = ListObjectsV2 bucket prefix token.

Section Vocabulary2.

Context {sigma : Type}.
Variable s3 : S3Client sigma.
Variable bucket : string.
Variable storage_class : StorageClass.

(** [attempt_ends key s pending s']: the transition attempt for [key] from
    state [s] runs through and leaves the provider in [s']; [pending] tells
    whether the provider refused it with [InvalidObjectState]. *)
Inductive attempt_ends (key : string) : sigma -> bool -> sigma -> Prop :=
| ends_skipped s s1 rsp obj :
    list_objects_v2 s3 bucket key None s = (s1, inr rsp) ->
    Contents rsp = Some [obj] ->
    ObjStorageClass obj <> "GLACIER" ->
    attempt_ends key s false s1
| ends_copied s s1 rsp obj s2 :
    list_objects_v2 s3 bucket key None s = (s1, inr rsp) ->
    Contents rsp = Some [obj] ->
    ObjStorageClass obj = "GLACIER" ->
    copy_object s3 bucket bucket key key (StorageClass_str storage_class) s1
      = (s2, inr tt) ->
    attempt_ends key s false s2
| ends_refused s s1 rsp obj s2 msg :
    list_objects_v2 s3 bucket key None s = (s1, inr rsp) ->
    Contents rsp = Some [obj] ->
    ObjStorageClass obj = "GLACIER" ->
    copy_object s3 bucket bucket key key (StorageClass_str storage_class) s1
      = (s2, inl (ClientError "InvalidObjectState" msg)) ->
    attempt_ends key s true s2
| ends_listing_refused s s1 msg :
    list_objects_v2 s3 bucket key None s
      = (s1, inl (ClientError "InvalidObjectState" msg)) ->
    attempt_ends key s true s1.

(** [paged_then_fails prefix token s pages s' e]: the provider serves the
    pages [pages] along its continuation tokens and then answers the next
    request by raising [e]. *)
Inductive paged_then_fails (prefix : string)
  : option string -> sigma -> list (list S3Object) -> sigma -> exn -> Prop :=
| fails_now token s s' e :
    list_objects_v2 s3 bucket prefix token s = (s', inl e) ->
    paged_then_fails prefix token s [] s' e
| fails_later token s s1 rsp next pages s' e :
    list_objects_v2 s3 bucket prefix token s = (s1, inr rsp) ->
    NextContinuationToken rsp = Some next ->
    paged_then_fails prefix (Some next) s1 pages s' e ->
    paged_then_fails prefix token s (objects_of rsp :: pages) s' e.

End Vocabulary2.

(** ** A provider that never completes a restore

    Every key exists once, as a GLACIER object, and every copy is refused
    with [InvalidObjectState]; the provider keeps no state. *)

Module Stuck.

Definition list_objects_v2 (bucket pfx : string) (token : option string)
    (st : unit) : unit * (exn + ListObjectsV2Output) :=
  (st, inr {| Contents := Some [{| Key := pfx;
                                   ObjStorageClass := "GLACIER" |}];
              NextContinuationToken := None |}).

Definition restore_object (bucket key : string) (days : Z) (tier : string)
    (st : unit) : unit * (exn + unit) :=
  (st, inr tt).

Definition copy_object (bucket src_bucket src_key key cls : string)
    (st : unit) : unit * (exn + unit) :=
  (st, inl (ClientError "InvalidObjectState"
              "Operation is not valid for the source object's storage class")).

Definition head_object (bucket key : string) (st : unit)
  : unit * (exn + HeadObjectOutput) :=
  (st, inr {| RestoreHeader := Some "ongoing-request=true" |}).

Definition client : S3Client unit :=
  Build_S3Client unit list_objects_v2 restore_object copy_object head_object.

End Stuck.

(** ** A provider that cannot be reached

    Every request raises an exception of the SDK that is not a
    [ClientError]. *)

Module Offline.

Definition unreachable : exn := BotoCoreError "EndpointConnectionError".

Definition client : S3Client unit :=
  Build_S3Client unit
    (fun _ _ _ st => (st, inl unreachable))
    (fun _ _ _ _ st => (st, inl unreachable))
    (fun _ _ _ _ _ st => (st, inl unreachable))
    (fun _ _ st => (st, inl unreachable)).

End Offline.

Definition args_for (o : Operation) (d : option string) (t : option Tier)
    (sc : option StorageClass) (poll : Z) : Args :=
  {| op := o; bucket := "b"; prefix := Some "logs/"; log_level := Debug;
     days := d; tier := t; storage_class := sc; poll_seconds := poll |}.

(** A bucket in which a restore is under way for the first key. *)
Definition one_restoring : Fake.Store :=
  {| Fake.bucket_name := "b";
     Fake.entries :=
       [{| Fake.ekey := "logs/a"; Fake.eclass := "GLACIER";
           Fake.epending := 2; Fake.erestoring := true;
           Fake.edenied := false |};
        Fake.glacier "logs/b" 0];
     Fake.max_keys := 1000 |}.

(** * Facts about the monad of runs *)

Section MonadFacts.

Context {sigma : Type}.

Lemma run_eta {A} (r : list Event * sigma * Outcome A) :
  r = (events r, final r, outcome r).
Proof. destruct r as [[ev s] o]; reflexivity. Qed.

Lemma bind_returned {A B} (m : M sigma A) (f : A -> M sigma B) s ev s1 a :
  m s = (ev, s1, Returned a) ->
  bind m f s = (ev ++ events (f a s1), final (f a s1), outcome (f a s1)).
Proof.
  intros Hm. unfold bind. rewrite Hm.
  destruct (f a s1) as [[ev' s2] r]; reflexivity.
Qed.

Lemma bind_raised {A B} (m : M sigma A) (f : A -> M sigma B) s ev s1 e :
  m s = (ev, s1, Raised e) -> bind m f s = (ev, s1, Raised e).
Proof. intros Hm. unfold bind. rewrite Hm. reflexivity. Qed.

Lemma bind_ext {A B} (m : M sigma A) (f g : A -> M sigma B) s :
  (forall a s', f a s' = g a s') -> bind m f s = bind m g s.
Proof.
  intros Hfg. unfold bind.
  destruct (m s) as [[ev s1] [a | e |]]; try reflexivity.
  rewrite Hfg. reflexivity.
Qed.

Lemma bind_assoc {A B C} (m : M sigma A) (f : A -> M sigma B)
    (g : B -> M sigma C) s :
  bind (bind m f) g s = bind m (fun a => bind (f a) g) s.
Proof.
  unfold bind.
  destruct (m s) as [[ev s1] [a | e |]]; try reflexivity.
  destruct (f a s1) as [[ev' s2] [b | e |]]; try reflexivity.
  destruct (g b s2) as [[ev'' s3] r].
  rewrite app_assoc. reflexivity.
Qed.

Lemma bind_events {A B} (m : M sigma A) (f : A -> M sigma B) s :
  exists rest, events (bind m f s) = events (m s) ++ rest.
Proof.
  unfold bind. destruct (m s) as [[ev s1] [a | e |]].
  - destruct (f a s1) as [[ev' s2] r]. exists ev'. reflexivity.
  - exists []. cbn. rewrite app_nil_r. reflexivity.
  - exists []. cbn. rewrite app_nil_r. reflexivity.
Qed.

Lemma bind_ret_l {A B} (a : A) (f : A -> M sigma B) s :
  bind (ret a) f s = f a s.
Proof.
  unfold bind, ret. destruct (f a s) as [[ev s1] r]. reflexivity.
Qed.

End MonadFacts.

(** Case analysis along every path of a run: the innermost scrutinee
    first. *)
Ltac split_paths :=
  repeat (cbn [fst snd];
          match goal with
          | |- context [match ?x with _ => _ end] =>
              lazymatch x with
              | context [match _ with _ => _ end] => fail
              | _ => destruct x eqn:?
              end
          end).

Ltac unfold_transit_key :=
  unfold transit_key, try_except, transit_try, bind, call_list_objects_v2,
    call_copy_object, request, assert, log, emit, ret, raise.

Ltac invert_run :=
  let H := fresh "Hrun" in
  intros H; inversion H; subst; clear H.

(** * The Transition Poller *)

Section PollerFacts.

Context {sigma : Type}.
Variable s3 : S3Client sigma.
Variable bucket : string.
Variable storage_class : StorageClass.
Variable poll_seconds : Z.

Local Abbreviation transit_key' := (transit_key s3 bucket storage_class).
Local Abbreviation transit_keys' := (transit_keys s3 bucket storage_class).
Local Abbreviation transit_once' := (transit_once s3 bucket storage_class).
Local Abbreviation poll fuel keys :=
  (transit_glacier_objects s3 fuel bucket keys storage_class poll_seconds).

Lemma transit_keys_app pre post flag s :
  transit_keys' (pre ++ post) flag s
  = bind (transit_keys' pre flag) (transit_keys' post) s.
Proof.
  revert flag s. induction pre as [| k pre IH]; intros flag s.
  - simpl. rewrite bind_ret_l. reflexivity.
  - simpl. rewrite bind_assoc. apply bind_ext. intros f s'. apply IH.
Qed.

(** A cycle that reaches key [k] with every earlier key settled, and in
    which the iteration for [k] raises, raises. *)
Lemma transit_once_raises pre k post s ev1 s1 flag ev_k s2 e :
  transit_keys' pre false s = (ev1, s1, Returned flag) ->
  transit_key' k flag s1 = (ev_k, s2, Raised e) ->
  transit_once' (pre ++ k :: post) s = (ev1 ++ ev_k, s2, Raised e).
Proof.
  intros Hpre Hk. unfold transit_once.
  rewrite transit_keys_app, (bind_returned _ _ _ _ _ _ Hpre).
  simpl transit_keys.
  rewrite (bind_raised _ _ _ _ _ _ Hk). reflexivity.
Qed.

(** The poll loop after [n] cycles that ended pending. *)
Lemma poll_after_pending keys n s evs s1 :
  pending_cycles s3 bucket storage_class keys poll_seconds n s evs s1 ->
  forall fuel,
    poll (n + fuel) keys s
    = (evs ++ events (poll fuel keys s1), final (poll fuel keys s1),
       outcome (poll fuel keys s1)).
Proof.
  induction 1 as [s | n s ev s1 evs s2 Hcycle Hpos Hrest IH]; intros fuel.
  - simpl. apply run_eta.
  - change (S n + fuel) with (S (n + fuel)).
    cbn [transit_glacier_objects].
    rewrite (bind_returned _ _ _ _ _ _ Hcycle). cbn [negb].
    unfold sleep. rewrite Hpos.
    unfold bind, emit. rewrite IH. cbn [events final outcome fst snd].
    rewrite <- app_assoc. reflexivity.
Qed.

Lemma poll_aborts keys n s evs s1 ev s2 e fuel :
  pending_cycles s3 bucket storage_class keys poll_seconds n s evs s1 ->
  transit_once' keys s1 = (ev, s2, Raised e) ->
  n < fuel ->
  poll fuel keys s = (evs ++ ev, s2, Raised e).
Proof.
  intros Hpend Hcycle Hfuel.
  replace fuel with (n + S (fuel - S n)) by lia.
  rewrite (poll_after_pending _ _ _ _ _ Hpend).
  cbn [transit_glacier_objects].
  rewrite (bind_raised _ _ _ _ _ _ Hcycle). reflexivity.
Qed.

Lemma poll_finishes keys n s evs s1 ev s2 fuel :
  pending_cycles s3 bucket storage_class keys poll_seconds n s evs s1 ->
  transit_once' keys s1 = (ev, s2, Returned false) ->
  n < fuel ->
  poll fuel keys s = (evs ++ ev, s2, Returned tt).
Proof.
  intros Hpend Hcycle Hfuel.
  replace fuel with (n + S (fuel - S n)) by lia.
  rewrite (poll_after_pending _ _ _ _ _ Hpend).
  cbn [transit_glacier_objects].
  rewrite (bind_returned _ _ _ _ _ _ Hcycle). cbn.
  rewrite app_nil_r. reflexivity.
Qed.

Lemma transit_key_fails key flag s s' code msg ev :
  attempt_fails s3 bucket storage_class key s s' (ClientError code msg) ev ->
  code <> "InvalidObjectState" ->
  transit_key' key flag s = (ev, s', Raised (ClientError code msg)).
Proof.
  intros Hfail Hcode. apply String.eqb_neq in Hcode.
  unfold transit_key, try_except, transit_try, bind, call_list_objects_v2,
    call_copy_object, request.
  inversion Hfail as [s0 s0' e0 Hlist | s0 s1 rsp obj s0' e0 Hlist Hc Hcls Hcopy];
    subst; rewrite Hlist.
  - rewrite Hcode. reflexivity.
  - rewrite Hc. cbn. rewrite Hcls. cbn. rewrite Hcopy. cbn.
    rewrite Hcode. reflexivity.
Qed.

(** C4. In any poll cycle, when the transition attempt of a key makes the
    provider raise an error whose code is not [InvalidObjectState], the
    poll loop ends at once with that error: the events of the run stop at
    the failed attempt (no warning, no skip, no later key, no sleep, no
    later cycle). *)
Theorem hard_error_aborts_poll
    keys pre k post n s evs s1 ev1 s2 flag s' code msg ev_k fuel :
  keys = pre ++ k :: post ->
  pending_cycles s3 bucket storage_class keys poll_seconds n s evs s1 ->
  transit_keys' pre false s1 = (ev1, s2, Returned flag) ->
  attempt_fails s3 bucket storage_class k s2 s' (ClientError code msg) ev_k ->
  code <> "InvalidObjectState" ->
  n < fuel ->
  poll fuel keys s = (evs ++ ev1 ++ ev_k, s', Raised (ClientError code msg)).
Proof.
  intros Hkeys Hpend Hpre Hfail Hcode Hfuel.
  apply (poll_aborts _ _ _ _ _ _ _ _ _ Hpend); [| exact Hfuel].
  rewrite Hkeys. eapply transit_once_raises; [exact Hpre |].
  apply transit_key_fails; assumption.
Qed.

Lemma transit_key_skips key flag s s1 rsp obj :
  list_objects_v2 s3 bucket key None s = (s1, inr rsp) ->
  Contents rsp = Some [obj] ->
  ObjStorageClass obj <> "GLACIER" ->
  transit_key' key flag s
  = ([relist bucket key; EvLog Debug (msg_skipping key)], s1, Returned flag).
Proof.
  intros Hlist Hc Hcls. apply String.eqb_neq in Hcls.
  unfold transit_key, try_except, transit_try, bind, call_list_objects_v2,
    request.
  rewrite Hlist, Hc. cbn. rewrite Hcls. reflexivity.
Qed.

Lemma transit_key_broken key flag s s1 rsp :
  list_objects_v2 s3 bucket key None s = (s1, inr rsp) ->
  List.length (objects_of rsp) <> 1 ->
  transit_key' key flag s
  = ([relist bucket key], s1,
     Raised match Contents rsp with
            | Some _ => AssertionError ""
            | None => KeyError "Contents"
            end).
Proof.
  intros Hlist Hlen.
  unfold transit_key, try_except, transit_try, bind, call_list_objects_v2,
    request.
  rewrite Hlist. unfold objects_of in Hlen.
  destruct (Contents rsp) as [objs |]; [| reflexivity].
  apply Nat.eqb_neq in Hlen. cbn. rewrite Hlen. reflexivity.
Qed.

(** Every path through one iteration that does not raise has asked the
    provider for exactly one listing, that of the key. *)
Lemma transit_key_relists key flag s ev s' flag' :
  transit_key' key flag s = (ev, s', Returned flag') ->
  filter is_list_request ev = [relist bucket key].
Proof.
  unfold transit_key, try_except, transit_try, bind, call_list_objects_v2,
    call_copy_object, request, assert, log, emit, ret, raise.
  destruct (list_objects_v2 s3 bucket key None s) as [s1 [e | rsp]].
  - destruct e as [code msg | | | |]; try discriminate.
    destruct (code =? "InvalidObjectState")%string; [| discriminate].
    intros H; inversion H; reflexivity.
  - destruct (Contents rsp) as [[| obj [| obj' rest]] |]; cbn;
      try discriminate.
    destruct (ObjStorageClass obj =? "GLACIER")%string; cbn.
    + destruct (copy_object s3 bucket bucket key key
                  (StorageClass_str storage_class) s1) as [s2 [e | []]].
      * destruct e as [code msg | | | |]; try discriminate.
        destruct (code =? "InvalidObjectState")%string; [| discriminate].
        intros H; inversion H; reflexivity.
      * intros H; inversion H; reflexivity.
    + intros H; inversion H; reflexivity.
Qed.

Lemma transit_keys_relist keys flag s ev s' flag' :
  transit_keys' keys flag s = (ev, s', Returned flag') ->
  filter is_list_request ev = map (relist bucket) keys.
Proof.
  revert flag s ev. induction keys as [| k keys IH]; intros flag s ev.
  - cbn. intros H; inversion H; reflexivity.
  - cbn [transit_keys]. unfold bind.
    destruct (transit_key' k flag s) as [[ev1 s1] [f1 | e |]] eqn:Hk;
      try discriminate.
    destruct (transit_keys' keys f1 s1) as [[ev2 s2] r] eqn:Hrest.
    intros H; inversion H; subst.
    rewrite filter_app, (transit_key_relists _ _ _ _ _ _ Hk),
      (IH _ _ _ Hrest).
    reflexivity.
Qed.

(** C1, as the script has it.  The poller keeps no record of settled keys.
    (1) Every cycle that runs through, from any state and whatever happened
    before, has listed every key of the batch again, one request per key, in
    batch order.  (2) A cycle in which key [k] is found to be no longer
    GLACIER spends one listing request on it, logs the skip and goes on to
    the next key without a copy request. *)
Theorem settled_key_is_relisted_not_copied keys s :
  (forall ev s' pending,
      transit_once' keys s = (ev, s', Returned pending) ->
      filter is_list_request ev = map (relist bucket) keys)
  /\ (forall pre k post ev1 s1 flag s2 rsp obj,
        keys = pre ++ k :: post ->
        transit_keys' pre false s = (ev1, s1, Returned flag) ->
        list_objects_v2 s3 bucket k None s1 = (s2, inr rsp) ->
        Contents rsp = Some [obj] ->
        ObjStorageClass obj <> "GLACIER" ->
        transit_once' keys s
        = (ev1 ++ [relist bucket k; EvLog Debug (msg_skipping k)]
               ++ events (transit_keys' post flag s2),
           final (transit_keys' post flag s2),
           outcome (transit_keys' post flag s2))).
Proof.
  split.
  - intros ev s' pending. apply transit_keys_relist.
  - intros pre k post ev1 s1 flag s2 rsp obj Hkeys Hpre Hlist Hc Hcls.
    unfold transit_once. rewrite Hkeys, transit_keys_app.
    rewrite (bind_returned _ _ _ _ _ _ Hpre). cbn [transit_keys].
    rewrite (bind_returned _ _ _ _ _ _
               (transit_key_skips k flag s1 s2 rsp obj Hlist Hc Hcls)).
    cbn [events final outcome fst snd]. reflexivity.
Qed.

(** C9, as the script has it.  When the re-listing of a key does not carry
    exactly one object, the poll loop ends at once with an exception that no
    handler of the script catches: [AssertionError] when the response has a
    ["Contents"] list of another length, [KeyError] when the response has no
    ["Contents"] entry.  The key is neither skipped nor copied and no later
    key or cycle runs. *)
Theorem relisting_needs_exactly_one_object
    keys pre k post n s evs s1 ev1 s2 flag s' rsp fuel :
  keys = pre ++ k :: post ->
  pending_cycles s3 bucket storage_class keys poll_seconds n s evs s1 ->
  transit_keys' pre false s1 = (ev1, s2, Returned flag) ->
  list_objects_v2 s3 bucket k None s2 = (s', inr rsp) ->
  List.length (objects_of rsp) <> 1 ->
  n < fuel ->
  poll fuel keys s
  = (evs ++ ev1 ++ [relist bucket k], s',
     Raised match Contents rsp with
            | Some _ => AssertionError ""
            | None => KeyError "Contents"
            end).
Proof.
  intros Hkeys Hpend Hpre Hlist Hlen Hfuel.
  apply (poll_aborts _ _ _ _ _ _ _ _ _ Hpend); [| exact Hfuel].
  rewrite Hkeys. eapply transit_once_raises; [exact Hpre |].
  apply transit_key_broken; assumption.
Qed.

(** The flag that comes out of an iteration is the flag that went in,
    raised when the iteration logged an [InvalidObjectState]. *)
Lemma transit_key_flag key flag s ev s' flag' :
  transit_key' key flag s = (ev, s', Returned flag') ->
  flag' = flag || existsb reports_pending ev.
Proof.
  unfold_transit_key. split_paths; try discriminate; invert_run; cbn;
    rewrite ?orb_false_r; try reflexivity.
  all: match goal with H : (_ =? _)%string = true |- _ => rewrite H end.
  all: rewrite orb_true_r; reflexivity.
Qed.

Lemma transit_keys_flag keys flag s ev s' flag' :
  transit_keys' keys flag s = (ev, s', Returned flag') ->
  flag' = flag || existsb reports_pending ev.
Proof.
  revert flag s ev. induction keys as [| k keys IH]; intros flag s ev.
  - cbn. invert_run. cbn. rewrite orb_false_r. reflexivity.
  - cbn [transit_keys]. unfold bind.
    destruct (transit_key' k flag s) as [[ev1 s1] [f1 | e |]] eqn:Hk;
      try discriminate.
    destruct (transit_keys' keys f1 s1) as [[ev2 s2] r] eqn:Hrest.
    invert_run.
    rewrite existsb_app, (IH _ _ _ Hrest), (transit_key_flag _ _ _ _ _ _ Hk).
    rewrite orb_assoc. reflexivity.
Qed.

(** Nothing inside a cycle sleeps, and a cycle never runs out of fuel: it
    has no loop but the one over the batch. *)
Lemma transit_key_no_sleep key flag s :
  existsb is_sleep (events (transit_key' key flag s)) = false.
Proof. unfold_transit_key. split_paths; reflexivity. Qed.

Lemma transit_keys_no_sleep keys flag s :
  existsb is_sleep (events (transit_keys' keys flag s)) = false.
Proof.
  revert flag s. induction keys as [| k keys IH]; intros flag s.
  - reflexivity.
  - cbn [transit_keys]. unfold bind.
    pose proof (transit_key_no_sleep k flag s) as Hk.
    destruct (transit_key' k flag s) as [[ev1 s1] [f1 | e |]]; try exact Hk.
    specialize (IH f1 s1).
    destruct (transit_keys' keys f1 s1) as [[ev2 s2] r].
    cbn in *. rewrite existsb_app, Hk, IH. reflexivity.
Qed.

Lemma transit_key_halts key flag s :
  outcome (transit_key' key flag s) <> OutOfFuel.
Proof. unfold_transit_key. split_paths; discriminate. Qed.

Lemma transit_keys_halts keys flag s :
  outcome (transit_keys' keys flag s) <> OutOfFuel.
Proof.
  revert flag s. induction keys as [| k keys IH]; intros flag s.
  - discriminate.
  - cbn [transit_keys]. unfold bind.
    pose proof (transit_key_halts k flag s) as Hk.
    destruct (transit_key' k flag s) as [[ev1 s1] [f1 | e |]];
      try discriminate.
    + specialize (IH f1 s1).
      destruct (transit_keys' keys f1 s1) as [[ev2 s2] r]. exact IH.
    + exfalso. apply Hk. reflexivity.
Qed.

(** One turn of the [while True] loop. *)
Lemma poll_step keys fuel s :
  poll (S fuel) keys s
  = match transit_once' keys s with
    | (ev, s1, Returned false) => (ev, s1, Returned tt)
    | (ev, s1, Returned true) =>
        if (poll_seconds <? 0)%Z
        then (ev, s1, Raised (ValueError "sleep length must be non-negative"))
        else (ev ++ EvSleep poll_seconds :: events (poll fuel keys s1),
              final (poll fuel keys s1), outcome (poll fuel keys s1))
    | (ev, s1, Raised e) => (ev, s1, Raised e)
    | (ev, s1, OutOfFuel) => (ev, s1, OutOfFuel)
    end.
Proof.
  cbn [transit_glacier_objects]. unfold bind at 1.
  destruct (transit_once' keys s) as [[ev s1] [[|] | e |]]; try reflexivity.
  - cbn [negb]. unfold sleep.
    destruct (poll_seconds <? 0)%Z.
    + cbn. rewrite app_nil_r. reflexivity.
    + unfold bind, emit.
      destruct (poll fuel keys s1) as [[ev' s2] r]. reflexivity.
  - cbn. rewrite app_nil_r. reflexivity.
Qed.

End PollerFacts.

Lemma hard_error_aborts_poll_witness :
  outcome (transit_glacier_objects Fake.client 5 "b"
             ["logs/a"; "logs/b"; "logs/c"] SCStandard 60 denied_key)
  = Raised (ClientError "AccessDenied" "Access Denied").
Proof.
  erewrite (hard_error_aborts_poll Fake.client "b" SCStandard 60
              ["logs/a"; "logs/b"; "logs/c"] ["logs/a"] "logs/b" ["logs/c"] 1
              denied_key _ _ _ _ _ _ "AccessDenied" "Access Denied").
  - reflexivity.
  - reflexivity.
  - eapply pending_more; [reflexivity | reflexivity | apply pending_none].
  - reflexivity.
  - eapply fails_copy; reflexivity.
  - discriminate.
  - lia.
Defined.

(** * Termination of the poll loop *)

Lemma list_sum_map_le {A} (f g : A -> nat) (l : list A) :
  (forall a, In a l -> f a <= g a) ->
  list_sum (map f l) <= list_sum (map g l).
Proof.
  induction l as [| a l IH]; intros Hle; [cbn; lia |].
  pose proof (Hle a (or_introl eq_refl)).
  assert (list_sum (map f l) <= list_sum (map g l))
    by (apply IH; intros; apply Hle; right; assumption).
  unfold list_sum in *. cbn. lia.
Qed.

Lemma list_sum_map_lt {A} (f g : A -> nat) (l : list A) a0 :
  (forall a, In a l -> f a <= g a) ->
  In a0 l -> f a0 < g a0 ->
  list_sum (map f l) < list_sum (map g l).
Proof.
  induction l as [| a l IH]; intros Hle Hin Hlt; [contradiction |].
  pose proof (Hle a (or_introl eq_refl)).
  assert (list_sum (map f l) <= list_sum (map g l))
    by (apply list_sum_map_le; intros; apply Hle; right; assumption).
  destruct Hin as [-> | Hin]; [unfold list_sum in *; cbn; lia |].
  assert (list_sum (map f l) < list_sum (map g l))
    by (apply IH; [intros; apply Hle; right |..]; assumption).
  unfold list_sum in *. cbn. lia.
Qed.

Section Termination.

Context {sigma : Type}.
Variable s3 : S3Client sigma.
Variable bucket : string.
Variable storage_class : StorageClass.
Variable poll_seconds : Z.
Variable keys : list string.

(** [pend key s] bounds the number of times the provider will still answer
    [InvalidObjectState] for [key]: no request raises the bound of any key
    of the batch, and each such answer for a key uses up one of its own. *)
Variable pend : string -> sigma -> nat.

Hypothesis listing_keeps_pend : forall key prefix token s,
  In key keys ->
  pend key (fst (list_objects_v2 s3 bucket prefix token s)) <= pend key s.

Hypothesis copy_keeps_pend : forall key key' cls s,
  In key keys ->
  pend key (fst (copy_object s3 bucket bucket key' key' cls s)) <= pend key s.

Hypothesis refused_listing_counts : forall key token s s' msg,
  In key keys ->
  list_objects_v2 s3 bucket key token s
    = (s', inl (ClientError "InvalidObjectState" msg)) ->
  pend key s' < pend key s.

Hypothesis refused_copy_counts : forall key cls s s' msg,
  In key keys ->
  copy_object s3 bucket bucket key key cls s
    = (s', inl (ClientError "InvalidObjectState" msg)) ->
  pend key s' < pend key s.

Local Abbreviation total := (total_pending pend keys).
Local Abbreviation transit_key' := (transit_key s3 bucket storage_class).
Local Abbreviation transit_keys' := (transit_keys s3 bucket storage_class).
Local Abbreviation poll fuel :=
  (transit_glacier_objects s3 fuel bucket keys storage_class poll_seconds).

Lemma total_after_listing prefix token s s1 r :
  list_objects_v2 s3 bucket prefix token s = (s1, r) -> total s1 <= total s.
Proof.
  intros Hlist. apply list_sum_map_le. intros key Hin.
  pose proof (listing_keeps_pend key prefix token s Hin) as H.
  rewrite Hlist in H. exact H.
Qed.

Lemma total_after_copy key cls s s1 r :
  copy_object s3 bucket bucket key key cls s = (s1, r) -> total s1 <= total s.
Proof.
  intros Hcopy. apply list_sum_map_le. intros k Hin.
  pose proof (copy_keeps_pend k key cls s Hin) as H.
  rewrite Hcopy in H. exact H.
Qed.

Lemma total_after_refused_listing key token s s1 msg :
  In key keys ->
  list_objects_v2 s3 bucket key token s
    = (s1, inl (ClientError "InvalidObjectState" msg)) ->
  total s1 < total s.
Proof.
  intros Hin Hlist. apply list_sum_map_lt with (a0 := key).
  - intros k Hk. pose proof (listing_keeps_pend k key token s Hk) as H.
    rewrite Hlist in H. exact H.
  - exact Hin.
  - eapply refused_listing_counts; eassumption.
Qed.

Lemma total_after_refused_copy key cls s s1 msg :
  In key keys ->
  copy_object s3 bucket bucket key key cls s
    = (s1, inl (ClientError "InvalidObjectState" msg)) ->
  total s1 < total s.
Proof.
  intros Hin Hcopy. apply list_sum_map_lt with (a0 := key).
  - intros k Hk. pose proof (copy_keeps_pend k key cls s Hk) as H.
    rewrite Hcopy in H. exact H.
  - exact Hin.
  - eapply refused_copy_counts; eassumption.
Qed.

(** One iteration never raises the total, and lowers it when it is the
    one that raises the flag. *)
Lemma transit_key_total key flag s :
  In key keys ->
  total (final (transit_key' key flag s)) <= total s /\
  (flag = false ->
   outcome (transit_key' key flag s) = Returned true ->
   total (final (transit_key' key flag s)) < total s).
Proof.
  intros Hin. unfold_transit_key.
  destruct (list_objects_v2 s3 bucket key None s) as [s1 [e | rsp]] eqn:Hlist.
  - pose proof (total_after_listing _ _ _ _ _ Hlist) as Hle.
    destruct e as [code msg | | | |]; cbn;
      try (split; [exact Hle | discriminate]).
    destruct (code =? "InvalidObjectState")%string eqn:Hcode; cbn.
    + apply String.eqb_eq in Hcode. subst code.
      split; [exact Hle | intros _ _].
      eapply total_after_refused_listing; eassumption.
    + split; [exact Hle | discriminate].
  - pose proof (total_after_listing _ _ _ _ _ Hlist) as Hle.
    destruct (Contents rsp) as [[| obj [| obj' rest]] |]; cbn;
      try (split; [exact Hle | discriminate]).
    destruct (ObjStorageClass obj =? "GLACIER")%string; cbn.
    + destruct (copy_object s3 bucket bucket key key
                  (StorageClass_str storage_class) s1)
        as [s2 [e | []]] eqn:Hcopy.
      * pose proof (total_after_copy _ _ _ _ _ Hcopy) as Hle2.
        destruct e as [code msg | | | |]; cbn;
          try (split; [lia | discriminate]).
        destruct (code =? "InvalidObjectState")%string eqn:Hcode; cbn.
        -- apply String.eqb_eq in Hcode. subst code.
           split; [lia | intros _ _].
           pose proof (total_after_refused_copy _ _ _ _ _ Hin Hcopy). lia.
        -- split; [lia | discriminate].
      * pose proof (total_after_copy _ _ _ _ _ Hcopy) as Hle2. cbn.
        split; [lia | intros -> H; discriminate H].
    + split; [exact Hle | intros -> H; discriminate H].
Qed.

Lemma transit_keys_total ks flag s :
  incl ks keys ->
  total (final (transit_keys' ks flag s)) <= total s /\
  (flag = false ->
   outcome (transit_keys' ks flag s) = Returned true ->
   total (final (transit_keys' ks flag s)) < total s).
Proof.
  revert flag s. induction ks as [| k ks IH]; intros flag s Hincl.
  - cbn. split; [lia | intros -> H; discriminate H].
  - assert (Hk : In k keys) by (apply Hincl; left; reflexivity).
    assert (Hks : incl ks keys)
      by (intros x Hx; apply Hincl; right; exact Hx).
    cbn [transit_keys]. unfold bind.
    destruct (transit_key_total k flag s Hk) as [Hle Hlt].
    pose proof (transit_key_flag s3 bucket storage_class k flag s) as Hflag.
    destruct (transit_key' k flag s) as [[ev1 s1] [f1 | e |]] eqn:Hstep;
      cbn in Hle, Hlt |- *; try (split; [exact Hle | discriminate]).
    destruct (IH f1 s1 Hks) as [Hle' Hlt'].
    destruct (transit_keys' ks f1 s1) as [[ev2 s2] r] eqn:Hrest.
    cbn in Hle', Hlt' |- *. split; [lia |].
    intros -> Hout. destruct f1.
    + specialize (Hlt eq_refl eq_refl). lia.
    + specialize (Hlt' eq_refl Hout). lia.
Qed.

Lemma poll_halts_within m :
  forall s, total s <= m ->
  exists n r,
    n <= S m /\ outcome r <> OutOfFuel /\
    forall fuel, n <= fuel -> poll fuel s = r.
Proof.
  induction m as [| m IH]; intros s Hm.
  all: destruct (transit_keys_total keys false s (incl_refl keys))
         as [Hle Hlt].
  all: pose proof (transit_keys_halts s3 bucket storage_class keys false s)
         as Hhalt.
  all: pose proof (fun fuel => poll_step s3 bucket storage_class poll_seconds
                                 keys fuel s) as Hstep.
  all: unfold transit_once in Hstep.
  all: destruct (transit_keys' keys false s) as [[ev s1] [[|] | e |]];
         cbn in Hle, Hlt, Hhalt; try (exfalso; apply Hhalt; reflexivity).
  all: try (specialize (Hlt eq_refl eq_refl); cbn in Hm; lia).
  (* no key pending, or an exception: the first cycle is the last *)
  all: try (eexists 1, _; split; [lia |]; split;
            [| intros [| fuel] Hf; [lia | apply Hstep]]; discriminate).
  (* some key pending: the total went down *)
  specialize (Hlt eq_refl eq_refl).
  destruct (poll_seconds <? 0)%Z.
  - eexists 1, _; split; [lia |]; split;
      [| intros [| fuel] Hf; [lia | apply Hstep]]; discriminate.
  - destruct (IH s1) as (n & r & Hn & Hr & Hrun); [lia |].
    exists (S n), (ev ++ EvSleep poll_seconds :: events r, final r, outcome r).
    split; [lia | split; [exact Hr |]].
    intros [| fuel] Hf; [lia |].
    rewrite Hstep, (Hrun fuel) by lia. reflexivity.
Qed.

End Termination.

(** * The in-memory provider keeps its promises *)

Module FakeFacts.

Import Fake.

Lemma listing_keeps_state bucket pfx token st :
  fst (list_objects_v2 bucket pfx token st) = st.
Proof.
  unfold list_objects_v2.
  destruct (negb (bucket =? bucket_name st)%string); reflexivity.
Qed.

Lemma listing_never_refused bucket pfx token st st' msg :
  list_objects_v2 bucket pfx token st
  <> (st', inl (ClientError "InvalidObjectState" msg)).
Proof.
  unfold list_objects_v2, no_such_bucket.
  destruct (negb (bucket =? bucket_name st)%string); intros H; inversion H.
Qed.

Lemma copy_entries_pending key key' cls es es' r :
  copy_entries key' cls es = Some (es', r) ->
  pending_in key es' <= pending_in key es.
Proof.
  revert es' r. induction es as [| e es IH]; intros es' r; [discriminate |].
  cbn [copy_entries].
  destruct (ekey e =? key')%string eqn:Hhead.
  - destruct (eclass e =? "GLACIER")%string;
      [destruct (epending e) as [| n] eqn:Hpend;
       [destruct (edenied e) |] |];
      intros H; inversion H; subst; clear H;
      unfold pending_in; cbn [find ekey epending];
      destruct (ekey e =? key)%string; rewrite ?Hpend; cbn; lia.
  - destruct (copy_entries key' cls es) as [[rest' r'] |] eqn:Hrest;
      [| discriminate].
    intros H; inversion H; subst; clear H.
    specialize (IH _ _ eq_refl).
    unfold pending_in in *. cbn [find].
    destruct (ekey e =? key)%string; [lia | exact IH].
Qed.

Lemma copy_entries_refused key cls es es' msg :
  copy_entries key cls es
  = Some (es', Some (ClientError "InvalidObjectState" msg)) ->
  pending_in key es' < pending_in key es.
Proof.
  revert es'. induction es as [| e es IH]; intros es'; [discriminate |].
  cbn [copy_entries].
  destruct (ekey e =? key)%string eqn:Hhead.
  - destruct (eclass e =? "GLACIER")%string;
      [destruct (epending e) as [| n] eqn:Hpend;
       [destruct (edenied e) |] |];
      intros H; inversion H; subst; clear H.
    unfold pending_in. cbn [find ekey epending]. rewrite Hhead, Hpend.
    cbn. lia.
  - destruct (copy_entries key cls es) as [[rest' r'] |] eqn:Hrest;
      [| discriminate].
    intros H; inversion H; subst; clear H.
    specialize (IH _ eq_refl).
    unfold pending_in in *. cbn [find]. rewrite Hhead. exact IH.
Qed.

Lemma copy_keeps_pending key bucket key' cls st :
  pending_of key (fst (copy_object bucket bucket key' key' cls st))
  <= pending_of key st.
Proof.
  unfold copy_object.
  destruct (negb (bucket =? bucket_name st)%string); [cbn; lia |].
  destruct (copy_entries key' cls (entries st)) as [[es [err |]] |] eqn:Hc;
    cbn; try lia.
  all: unfold pending_of; cbn; eapply copy_entries_pending; eassumption.
Qed.

Lemma refusal_uses_up_pending key bucket cls st st' msg :
  copy_object bucket bucket key key cls st
  = (st', inl (ClientError "InvalidObjectState" msg)) ->
  pending_of key st' < pending_of key st.
Proof.
  unfold copy_object, no_such_bucket, no_such_key.
  destruct (negb (bucket =? bucket_name st)%string);
    [intros H; inversion H |].
  destruct (copy_entries key cls (entries st)) as [[es [err |]] |] eqn:Hc;
    intros H; inversion H; subst; clear H.
  unfold pending_of. cbn. eapply copy_entries_refused; eassumption.
Qed.

End FakeFacts.

(** * The poll loop as a whole *)

(** C2. (1) After any number of pending cycles, a cycle that runs through
    without logging an [InvalidObjectState] ends the loop normally: the run
    is the events of the pending cycles and of that cycle, in which nothing
    sleeps; this holds of every provider.  (2) When each key of the batch
    has a bound on the refusals still to come, the loop ends (normally or by
    an exception) within one cycle more than the sum of the bounds, and with
    the same run for any larger fuel.  (3) On the two-key bucket, whose
    first key is refused once and whose second key is ready at once, one
    cycle is not enough and two are: the run returns after exactly one
    sleep. *)
Theorem poll_loop_ends
    {sigma : Type} (s3 : S3Client sigma) (bucket : string)
    (storage_class : StorageClass) (poll_seconds : Z) (keys : list string) :
  (forall n s evs s1 ev s2 pending fuel,
      pending_cycles s3 bucket storage_class keys poll_seconds n s evs s1 ->
      transit_once s3 bucket storage_class keys s1
      = (ev, s2, Returned pending) ->
      existsb reports_pending ev = false ->
      n < fuel ->
      transit_glacier_objects s3 fuel bucket keys storage_class poll_seconds s
      = (evs ++ ev, s2, Returned tt)
      /\ existsb is_sleep ev = false)
  /\ (forall pend : string -> sigma -> nat,
      (forall key prefix token s,
          In key keys ->
          pend key (fst (list_objects_v2 s3 bucket prefix token s))
          <= pend key s) ->
      (forall key key' cls s,
          In key keys ->
          pend key (fst (copy_object s3 bucket bucket key' key' cls s))
          <= pend key s) ->
      (forall key token s s' msg,
          In key keys ->
          list_objects_v2 s3 bucket key token s
          = (s', inl (ClientError "InvalidObjectState" msg)) ->
          pend key s' < pend key s) ->
      (forall key cls s s' msg,
          In key keys ->
          copy_object s3 bucket bucket key key cls s
          = (s', inl (ClientError "InvalidObjectState" msg)) ->
          pend key s' < pend key s) ->
      forall s,
      exists n r,
        n <= S (total_pending pend keys s) /\
        outcome r <> OutOfFuel /\
        forall fuel,
          n <= fuel ->
          transit_glacier_objects s3 fuel bucket keys storage_class
                                  poll_seconds s = r)
  /\ (outcome (transit_glacier_objects Fake.client 1 "b"
                 ["logs/a"; "logs/b"] SCStandard 3600 two_keys) = OutOfFuel
      /\ forall fuel,
          outcome (transit_glacier_objects Fake.client (2 + fuel) "b"
                     ["logs/a"; "logs/b"] SCStandard 3600 two_keys)
          = Returned tt
          /\ filter is_sleep
               (events (transit_glacier_objects Fake.client (2 + fuel) "b"
                          ["logs/a"; "logs/b"] SCStandard 3600 two_keys))
             = [EvSleep 3600]).
Proof.
  split; [| split].
  - intros n s evs s1 ev s2 pending fuel Hpend Hcycle Hquiet Hfuel.
    pose proof (transit_keys_flag _ _ _ _ _ _ _ _ _ Hcycle) as Hflag.
    rewrite Hquiet in Hflag. cbn in Hflag. subst pending.
    split.
    + eapply poll_finishes; eassumption.
    + pose proof (transit_keys_no_sleep s3 bucket storage_class keys false s1)
        as Hsleep.
      unfold transit_once in Hcycle. rewrite Hcycle in Hsleep. exact Hsleep.
  - intros pend Hlist Hcopy Hlist_ios Hcopy_ios s.
    apply (poll_halts_within s3 bucket storage_class poll_seconds keys pend
             Hlist Hcopy Hlist_ios Hcopy_ios (total_pending pend keys s) s).
    apply Nat.le_refl.
  - split; [reflexivity |]. intros fuel. split; reflexivity.
Qed.

Lemma poll_loop_ends_witness :
  (transit_glacier_objects Fake.client 2 "b" ["logs/a"; "logs/b"] SCStandard
     3600 two_keys
   = (events (transit_once Fake.client "b" SCStandard ["logs/a"; "logs/b"]
                two_keys)
      ++ EvSleep 3600
      :: events (transit_once Fake.client "b" SCStandard ["logs/a"; "logs/b"]
                   (final (transit_once Fake.client "b" SCStandard
                             ["logs/a"; "logs/b"] two_keys))),
      final (transit_once Fake.client "b" SCStandard ["logs/a"; "logs/b"]
               (final (transit_once Fake.client "b" SCStandard
                         ["logs/a"; "logs/b"] two_keys))),
      Returned tt))
  /\ exists n r,
      n <= S (total_pending Fake.pending_of ["logs/a"; "logs/b"] two_keys) /\
      outcome r <> OutOfFuel /\
      forall fuel,
        n <= fuel ->
        transit_glacier_objects Fake.client fuel "b" ["logs/a"; "logs/b"]
                                SCStandard 3600 two_keys = r.
Proof.
  destruct (poll_loop_ends Fake.client "b" SCStandard 3600
              ["logs/a"; "logs/b"])
    as (Hquiet & Hends & _).
  split.
  - refine (proj1 (Hquiet 1 two_keys
                     (events (transit_once Fake.client "b" SCStandard
                                ["logs/a"; "logs/b"] two_keys)
                      ++ [EvSleep 3600])
                     _ _ _ false 2 _ _ _ _)).
    + eapply pending_more; [reflexivity | reflexivity | apply pending_none].
    + reflexivity.
    + reflexivity.
    + lia.
  - apply (Hends Fake.pending_of).
    + intros key pfx token s _.
      change (list_objects_v2 Fake.client) with Fake.list_objects_v2.
      rewrite FakeFacts.listing_keeps_state. apply Nat.le_refl.
    + intros key key' cls s _. apply FakeFacts.copy_keeps_pending.
    + intros key token s s' msg _ H.
      exfalso. exact (FakeFacts.listing_never_refused _ _ _ _ _ _ H).
    + intros key cls s s' msg _ H.
      exact (FakeFacts.refusal_uses_up_pending _ _ _ _ _ _ H).
Defined.

(** C10. On an empty batch the restore requester returns at once, with no
    event at all and the provider untouched, whatever the two policies; the
    poller needs exactly one cycle (no fuel is not enough, any fuel is) and
    that cycle has no event either: no request, no sleep. *)
Theorem empty_batch
    {sigma : Type} (s3 : S3Client sigma) (bucket : string) (d : Z) (t : Tier)
    (on_conflict on_error : bool) (sc : StorageClass) (poll_seconds : Z)
    (s : sigma) :
  restore_glacier_objects s3 bucket [] d t on_conflict on_error s
  = ([], s, Returned tt)
  /\ transit_glacier_objects s3 0 bucket [] sc poll_seconds s
     = ([], s, OutOfFuel)
  /\ forall fuel,
      transit_glacier_objects s3 (S fuel) bucket [] sc poll_seconds s
      = ([], s, Returned tt).
Proof. repeat split. Qed.

(** C1, as stated, fails on the two-key bucket: ["logs/b"] is copied with
    success in the first cycle, and the second cycle asks the provider to
    list it again. *)
Lemma done_key_is_listed_again :
  let keys := ["logs/a"; "logs/b"] in
  let cycle1 := transit_once Fake.client "b" SCStandard keys two_keys in
  let cycle2 := transit_once Fake.client "b" SCStandard keys (final cycle1) in
  transit_glacier_objects Fake.client 2 "b" keys SCStandard 3600 two_keys
  = (events cycle1 ++ EvSleep 3600 :: events cycle2, final cycle2,
     Returned tt)
  /\ In (copy_request "b" "logs/b" SCStandard) (events cycle1)
  /\ In (EvLog Debug (msg_transited "logs/b")) (events cycle1)
  /\ In (relist "b" "logs/b") (events cycle2).
Proof.
  repeat split; vm_compute; repeat first [left; reflexivity | right].
Qed.

Lemma settled_key_is_relisted_not_copied_witness :
  (* a cycle with no settled key: its key is listed *)
  filter is_list_request
    (events (transit_once Fake.client "b" SCStandard ["logs/a"] two_keys))
  = [relist "b" "logs/a"]
  (* a cycle with a settled key: listed, skipped, not copied *)
  /\ transit_once Fake.client "b" SCStandard ["logs/b"; "logs/a"] half_done
     = ([relist "b" "logs/b";
         EvLog Debug (msg_transiting "logs/b" SCStandard);
         copy_request "b" "logs/b" SCStandard;
         EvLog Debug (msg_transited "logs/b");
         relist "b" "logs/a"; EvLog Debug (msg_skipping "logs/a")],
        final (transit_once Fake.client "b" SCStandard ["logs/b"] half_done),
        Returned false).
Proof.
  split.
  - exact (proj1 (settled_key_is_relisted_not_copied Fake.client "b"
                    SCStandard ["logs/a"] two_keys)
             _ _ true eq_refl).
  - refine (proj2 (settled_key_is_relisted_not_copied Fake.client "b"
                     SCStandard ["logs/b"; "logs/a"] half_done)
              ["logs/b"] "logs/a" []
              (events (transit_once Fake.client "b" SCStandard ["logs/b"]
                         half_done))
              (final (transit_once Fake.client "b" SCStandard ["logs/b"]
                        half_done))
              false
              (final (transit_once Fake.client "b" SCStandard ["logs/b"]
                        half_done))
              {| Contents := Some [Fake.to_object (Fake.standard "logs/a")];
                 NextContinuationToken := None |}
              (Fake.to_object (Fake.standard "logs/a"))
              eq_refl eq_refl eq_refl eq_refl _).
    discriminate.
Defined.

(** C9, as stated, fails when the key is gone: the provider answers the
    listing without a ["Contents"] entry, and what ends the run is the
    [KeyError] of the lookup, before the assertion is reached. *)
Lemma deleted_key_raises_key_error :
  let r := transit_glacier_objects Fake.client 1 "b" ["logs/gone"] SCStandard
             3600 two_keys in
  Fake.list_objects_v2 "b" "logs/gone" None two_keys
  = (two_keys, inr {| Contents := None; NextContinuationToken := None |})
  /\ r = ([relist "b" "logs/gone"], two_keys, Raised (KeyError "Contents"))
  /\ forall msg, outcome r <> Raised (AssertionError msg).
Proof. repeat split. discriminate. Qed.

Lemma relisting_needs_exactly_one_object_witness :
  transit_glacier_objects Fake.client 1 "b" ["logs/b"; "logs/"; "logs/a"]
    SCStandard 3600 two_keys
  = (events (transit_once Fake.client "b" SCStandard ["logs/b"] two_keys)
     ++ [relist "b" "logs/"],
     final (transit_once Fake.client "b" SCStandard ["logs/b"] two_keys),
     Raised (AssertionError "")).
Proof.
  exact (relisting_needs_exactly_one_object Fake.client "b" SCStandard 3600
           ["logs/b"; "logs/"; "logs/a"] ["logs/b"] "logs/" ["logs/a"] 0
           two_keys [] two_keys
           (events (transit_once Fake.client "b" SCStandard ["logs/b"]
                      two_keys))
           (final (transit_once Fake.client "b" SCStandard ["logs/b"]
                     two_keys))
           false
           (final (transit_once Fake.client "b" SCStandard ["logs/b"]
                     two_keys))
           {| Contents :=
                Some (map Fake.to_object
                        (Fake.entries
                           (final (transit_once Fake.client "b" SCStandard
                                     ["logs/b"] two_keys))));
              NextContinuationToken := None |}
           1 eq_refl
           (pending_none Fake.client "b" SCStandard
              ["logs/b"; "logs/"; "logs/a"] 3600 two_keys)
           eq_refl eq_refl
           (fun H : 2 = 1 => Nat.neq_succ_diag_l 1 H)
           (Nat.lt_0_succ 0)).
Defined.

(** * The Restore Requester *)

Section RestoreFacts.

Context {sigma : Type}.
Variable s3 : S3Client sigma.
Variable bucket : string.
Variable d : Z.
Variable t : Tier.

Local Abbreviation restore keys on_conflict on_error :=
  (restore_glacier_objects s3 bucket keys d t on_conflict on_error).

Lemma restore_app pre post on_conflict on_error s :
  restore (pre ++ post) on_conflict on_error s
  = bind (restore pre on_conflict on_error)
         (fun _ => restore post on_conflict on_error) s.
Proof.
  revert s. induction pre as [| k pre IH]; intros s.
  - cbn [app restore_glacier_objects]. rewrite bind_ret_l. reflexivity.
  - cbn [app restore_glacier_objects]. rewrite bind_assoc.
    apply bind_ext. intros _ s'. apply IH.
Qed.

(** The iteration for one key whose request the provider refuses. *)
Lemma restore_refused key on_conflict on_error rest s s1 code msg :
  restore_object s3 bucket key d (Tier_str t) s
  = (s1, inl (ClientError code msg)) ->
  restore (key :: rest) on_conflict on_error s
  = if on_conflict then
      if (code =? "RestoreAlreadyInProgress")%string then
        ([EvLog Debug (msg_restoring key); restore_request bucket key d t;
          EvLog Warning (Exc (ClientError code msg))]
         ++ events (restore rest on_conflict on_error s1),
         final (restore rest on_conflict on_error s1),
         outcome (restore rest on_conflict on_error s1))
      else if on_error then
        ([EvLog Debug (msg_restoring key); restore_request bucket key d t;
          EvLog Error (Exc (ClientError code msg));
          EvLog Warning msg_continuing]
         ++ events (restore rest on_conflict on_error s1),
         final (restore rest on_conflict on_error s1),
         outcome (restore rest on_conflict on_error s1))
      else
        ([EvLog Debug (msg_restoring key); restore_request bucket key d t],
         s1, Raised (ClientError code msg))
    else
      ([EvLog Debug (msg_restoring key); restore_request bucket key d t],
       s1, Raised (ClientError code msg)).
Proof.
  intros Hreq. cbn [restore_glacier_objects].
  destruct on_conflict;
    unfold try_except, restore_impl, restore_handler, bind,
      call_restore_object, request, log, emit, raise;
    rewrite Hreq; [| reflexivity].
  destruct (code =? "RestoreAlreadyInProgress")%string.
  - destruct (restore_glacier_objects s3 bucket rest d t true on_error s1)
      as [[ev s2] r]. reflexivity.
  - destruct on_error; [| reflexivity].
    destruct (restore_glacier_objects s3 bucket rest d t true true s1)
      as [[ev s2] r]. reflexivity.
Qed.

(** The error policy in the four settings of the two flags.  When the
    provider refuses the request of a
    key with an error other than [RestoreAlreadyInProgress]: with both
    [continue_on_restore_already_in_progress] and [continue_on_other_errors]
    set, the error is logged and the iteration goes on with the remaining
    keys; with [continue_on_other_errors] unset, or with
    [continue_on_restore_already_in_progress] unset whatever the other flag,
    the call ends there with that error. *)
Theorem other_error_policy
    keys pre k post on_conflict on_error s ev1 s1 s2 code msg :
  keys = pre ++ k :: post ->
  restore pre on_conflict on_error s = (ev1, s1, Returned tt) ->
  restore_object s3 bucket k d (Tier_str t) s1
  = (s2, inl (ClientError code msg)) ->
  code <> "RestoreAlreadyInProgress" ->
  restore keys on_conflict on_error s
  = if on_conflict && on_error then
      (ev1 ++ [EvLog Debug (msg_restoring k); restore_request bucket k d t;
               EvLog Error (Exc (ClientError code msg));
               EvLog Warning msg_continuing]
           ++ events (restore post on_conflict on_error s2),
       final (restore post on_conflict on_error s2),
       outcome (restore post on_conflict on_error s2))
    else
      (ev1 ++ [EvLog Debug (msg_restoring k); restore_request bucket k d t],
       s2, Raised (ClientError code msg)).
Proof.
  intros Hkeys Hpre Hreq Hcode. apply String.eqb_neq in Hcode.
  rewrite Hkeys, restore_app, (bind_returned _ _ _ _ _ _ Hpre).
  rewrite (restore_refused _ _ _ _ _ _ _ _ Hreq), Hcode.
  destruct on_conflict, on_error; reflexivity.
Qed.

(** C8. Under the default conflict policy, running the requester on a
    batch for every key of which the provider answers
    [RestoreAlreadyInProgress] returns normally: each key costs one request
    and is logged as one warning carrying the provider's error, and nothing
    else happens.  [settled] is what is known of the provider's state after
    the first run. *)
Theorem restore_again_is_harmless
    (settled : sigma -> Prop) keys on_error s :
  (forall s k,
      settled s -> In k keys ->
      exists s' msg,
        restore_object s3 bucket k d (Tier_str t) s
        = (s', inl (ClientError "RestoreAlreadyInProgress" msg))
        /\ settled s') ->
  settled s ->
  exists msgs,
    List.length msgs = List.length keys
    /\ events (restore keys true on_error s)
       = List.concat (map (conflict_round bucket d t) (combine keys msgs))
    /\ settled (final (restore keys true on_error s))
    /\ outcome (restore keys true on_error s) = Returned tt.
Proof.
  revert s. induction keys as [| k keys' IH]; intros s Hprov Hs.
  - exists []. cbn. repeat split. exact Hs.
  - destruct (Hprov s k Hs (or_introl eq_refl)) as (s1 & msg & Hreq & Hs1).
    destruct (IH s1) as (msgs & Hlen & Hev & Hfin & Hout).
    + intros s0 k0 Hs0 Hin. apply Hprov; [exact Hs0 | right; exact Hin].
    + exact Hs1.
    + exists (msg :: msgs).
      rewrite (restore_refused _ _ _ _ _ _ _ _ Hreq).
      cbn [String.eqb events final outcome fst snd].
      change ("RestoreAlreadyInProgress" =? "RestoreAlreadyInProgress")%string
        with true.
      cbn [events final outcome fst snd combine map concat List.length].
      rewrite Hev, Hlen. repeat split; assumption.
Qed.

End RestoreFacts.

(** C3. The requester at the failing input: the first key is unknown to
    the provider ([NoSuchKey]) and [continue_on_other_errors] is set.  With
    [continue_on_restore_already_in_progress] unset the call ends with that
    error and the second key is never requested; the sibling branch, with
    the flag set and everything else the same, logs the error, says that it
    continues because [continue_on_other_errors] is set, requests the second
    key and returns. *)
Theorem error_policy_ignored_under_strict_conflict_policy :
  let strict := restore_glacier_objects Fake.client "b"
                  ["logs/gone"; "logs/b"] 5 Standard false true two_keys in
  let tolerant := restore_glacier_objects Fake.client "b"
                    ["logs/gone"; "logs/b"] 5 Standard true true two_keys in
  strict = ([EvLog Debug (msg_restoring "logs/gone");
             restore_request "b" "logs/gone" 5 Standard],
            two_keys, Raised Fake.no_such_key)
  /\ ~ In (restore_request "b" "logs/b" 5 Standard) (events strict)
  /\ events tolerant
     = [EvLog Debug (msg_restoring "logs/gone");
        restore_request "b" "logs/gone" 5 Standard;
        EvLog Error (Exc Fake.no_such_key);
        EvLog Warning msg_continuing;
        EvLog Debug (msg_restoring "logs/b");
        restore_request "b" "logs/b" 5 Standard;
        EvLog Debug (msg_restore_sent "logs/b")]
  /\ outcome tolerant = Returned tt.
Proof.
  split; [reflexivity | split; [| split; reflexivity]].
  cbn. intros [H | [H | []]]; discriminate H.
Qed.

Lemma other_error_policy_witness :
  restore_glacier_objects Fake.client "b" ["logs/a"; "logs/gone"; "logs/b"]
    5 Standard true true two_keys
  = (events (restore_glacier_objects Fake.client "b" ["logs/a"] 5 Standard
               true true two_keys)
     ++ [EvLog Debug (msg_restoring "logs/gone");
         restore_request "b" "logs/gone" 5 Standard;
         EvLog Error (Exc Fake.no_such_key);
         EvLog Warning msg_continuing;
         EvLog Debug (msg_restoring "logs/b");
         restore_request "b" "logs/b" 5 Standard;
         EvLog Debug (msg_restore_sent "logs/b")],
     final (restore_glacier_objects Fake.client "b" ["logs/a"; "logs/b"]
              5 Standard true true two_keys),
     Returned tt).
Proof.
  exact (other_error_policy Fake.client "b" 5 Standard
           ["logs/a"; "logs/gone"; "logs/b"] ["logs/a"] "logs/gone"
           ["logs/b"] true true two_keys
           (events (restore_glacier_objects Fake.client "b" ["logs/a"]
                      5 Standard true true two_keys))
           (final (restore_glacier_objects Fake.client "b" ["logs/a"]
                     5 Standard true true two_keys))
           (final (restore_glacier_objects Fake.client "b" ["logs/a"]
                     5 Standard true true two_keys))
           "NoSuchKey" "The specified key does not exist."
           eq_refl eq_refl eq_refl
           (fun H => match String.eqb_neq "NoSuchKey"
                             "RestoreAlreadyInProgress" with
                     | conj f _ => f eq_refl H
                     end)).
Defined.

Lemma restore_again_is_harmless_witness :
  let keys := ["logs/a"; "logs/b"] in
  let first := restore_glacier_objects Fake.client "b" keys 5 Standard
                 true true two_keys in
  outcome first = Returned tt
  /\ exists msgs,
      List.length msgs = 2
      /\ events (restore_glacier_objects Fake.client "b" keys 5 Standard
                   true true (final first))
         = List.concat (map (conflict_round "b" 5 Standard)
                            (combine keys msgs))
      /\ final (restore_glacier_objects Fake.client "b" keys 5 Standard
                  true true (final first)) = final first
      /\ outcome (restore_glacier_objects Fake.client "b" keys 5 Standard
                    true true (final first)) = Returned tt.
Proof.
  split; [reflexivity |].
  apply (restore_again_is_harmless Fake.client "b" 5 Standard
           (fun s => s = final (restore_glacier_objects Fake.client "b"
                                  ["logs/a"; "logs/b"] 5 Standard true true
                                  two_keys))
           ["logs/a"; "logs/b"] true
           (final (restore_glacier_objects Fake.client "b"
                     ["logs/a"; "logs/b"] 5 Standard true true two_keys))).
  - intros s k Hs [Hk | [Hk | []]]; subst s k;
      eexists _, _; split; reflexivity.
  - reflexivity.
Defined.

(** * The Restore Status Checker *)

(** C7, as the script has it.  The checker makes one request, a
    [head_object] for the key, and leaves the provider in the state that
    request leaves it in.  When the request raises, the exception escapes;
    when the response carries a ["Restore"] entry, its value is logged at
    debug level; when it does not, the checker returns without logging
    anything. *)
Theorem check_restore_status_spec
    {sigma : Type} (s3 : S3Client sigma) (bucket key : string) (s : sigma) :
  let r := check_restore_status s3 bucket key s in
  filter is_request (events r) = [EvRequest (HeadObject bucket key)]
  /\ final r = fst (head_object s3 bucket key s)
  /\ match snd (head_object s3 bucket key s) with
     | inl e =>
         events r = [EvRequest (HeadObject bucket key)]
         /\ outcome r = Raised e
     | inr rsp =>
         outcome r = Returned tt
         /\ events r
            = EvRequest (HeadObject bucket key)
              :: match RestoreHeader rsp with
                 | Some status => [EvLog Debug (msg_restore_status key status)]
                 | None => []
                 end
     end.
Proof.
  unfold check_restore_status, bind, call_head_object, request, log, emit, ret.
  destruct (head_object s3 bucket key s) as [s1 [e | rsp]]; cbn.
  - repeat split.
  - destruct (RestoreHeader rsp) as [status |]; cbn; repeat split.
Qed.

(** C7, as stated, fails for an object without restore metadata: the only
    event of the check is the request; nothing is reported. *)
Lemma no_restore_metadata_is_not_reported :
  Fake.head_object "b" "logs/a" two_keys
  = (two_keys, inr {| RestoreHeader := None |})
  /\ check_restore_status Fake.client "b" "logs/a" two_keys
     = ([EvRequest (HeadObject "b" "logs/a")], two_keys, Returned tt)
  /\ filter is_log
       (events (check_restore_status Fake.client "b" "logs/a" two_keys))
     = [].
Proof. repeat split. Qed.

(** * The Object Enumerator *)

Section EnumeratorFacts.

Context {sigma : Type}.
Variable s3 : S3Client sigma.
Variable bucket : string.
Variable prefix : string.
Variable glacier print : bool.

Lemma selected_app objs objs' :
  selected glacier (objs ++ objs')
  = selected glacier objs ++ selected glacier objs'.
Proof.
  unfold selected. destruct glacier.
  - rewrite filter_app, map_app. reflexivity.
  - apply map_app.
Qed.

Lemma selected_cons obj objs :
  selected glacier (obj :: objs)
  = (if negb glacier || is_archived obj then [Key obj] else [])
    ++ selected glacier objs.
Proof.
  unfold selected. destruct glacier; cbn; [| reflexivity].
  destruct (is_archived obj); reflexivity.
Qed.

Lemma collect_keys_spec objs keys (s : sigma) :
  collect_keys glacier print objs keys s
  = (if print then map (fun key => EvLog Debug (Text key))
                       (selected glacier objs)
     else [],
     s, Returned (keys ++ selected glacier objs)).
Proof.
  revert keys. induction objs as [| obj objs IH]; intros keys.
  - unfold selected. destruct glacier; cbn; rewrite app_nil_r;
      destruct print; reflexivity.
  - cbn [collect_keys]. rewrite selected_cons. unfold is_archived.
    destruct glacier; cbn [negb orb];
      [destruct (ObjStorageClass obj =? "GLACIER")%string |].
    + destruct print; unfold bind, log, emit, ret;
        rewrite IH, <- app_assoc; reflexivity.
    + rewrite IH. reflexivity.
    + destruct print; unfold bind, log, emit, ret;
        rewrite IH, <- app_assoc; reflexivity.
Qed.

Lemma logs_are_not_requests (l : list string) :
  filter is_request (map (fun key => EvLog Debug (Text key)) l) = [].
Proof. induction l; [reflexivity | assumption]. Qed.

Lemma selected_nil : selected glacier [] = [].
Proof. unfold selected. destruct glacier; reflexivity. Qed.

(** One turn of the [while is_continuing] loop. *)
Lemma list_objects_loop_step fuel token keys s s1 rsp :
  list_objects_v2 s3 bucket prefix token s = (s1, inr rsp) ->
  list_objects_loop s3 (S fuel) bucket prefix glacier print token keys s
  = let keys' := keys ++ selected glacier (objects_of rsp) in
    let logs := if print
                then map (fun key => EvLog Debug (Text key))
                         (selected glacier (objects_of rsp))
                else [] in
    match NextContinuationToken rsp with
    | None =>
        (EvRequest (ListObjectsV2 bucket prefix token) :: logs, s1,
         Returned keys')
    | Some next =>
        let r := list_objects_loop s3 fuel bucket prefix glacier print
                                   (Some next) keys' s1 in
        (EvRequest (ListObjectsV2 bucket prefix token) :: logs ++ events r,
         final r, outcome r)
    end.
Proof.
  intros Hlist. cbn [list_objects_loop]. unfold bind at 1.
  unfold call_list_objects_v2, request. rewrite Hlist.
  unfold bind at 1. unfold objects_of.
  destruct (Contents rsp) as [objs |].
  - rewrite collect_keys_spec. cbn zeta.
    destruct (NextContinuationToken rsp) as [next |].
    + destruct (list_objects_loop s3 fuel bucket prefix glacier print
                  (Some next) (keys ++ selected glacier objs) s1)
        as [[ev s2] r].
      reflexivity.
    + cbn. rewrite app_nil_r. reflexivity.
  - unfold ret at 1. rewrite selected_nil, app_nil_r. cbn zeta.
    replace (if print then map (fun key => EvLog Debug (Text key)) [] else [])
      with (@nil Event) by (destruct print; reflexivity).
    destruct (NextContinuationToken rsp) as [next |].
    + destruct (list_objects_loop s3 fuel bucket prefix glacier print
                  (Some next) keys s1) as [[ev s2] r].
      reflexivity.
    + reflexivity.
Qed.

Lemma list_objects_loop_spec token s pages s' :
  paged s3 bucket prefix token s pages s' ->
  forall fuel keys,
    List.length pages <= fuel ->
    exists ev,
      list_objects_loop s3 fuel bucket prefix glacier print token keys s
      = (ev, s', Returned (keys ++ selected glacier (List.concat pages)))
      /\ List.length (filter is_request ev) = List.length pages.
Proof.
  induction 1 as [token s s' rsp Hlist Hlast
                 | token s s1 rsp next pages s' Hlist Hnext Hrest IH];
    intros [| fuel] keys Hfuel; cbn in Hfuel; try lia;
    rewrite (list_objects_loop_step _ _ _ _ _ _ Hlist); cbn zeta.
  - rewrite Hlast. eexists. cbn [List.concat]. rewrite app_nil_r.
    split; [reflexivity |].
    cbn [filter is_request List.length]. f_equal.
    destruct print; [rewrite logs_are_not_requests |]; reflexivity.
  - rewrite Hnext.
    destruct (IH fuel (keys ++ selected glacier (objects_of rsp)))
      as (ev & Hrun & Hreq); [lia |].
    rewrite Hrun. eexists. cbn [List.concat events final outcome fst snd].
    rewrite selected_app, app_assoc. split; [reflexivity |].
    cbn [filter is_request List.length]. f_equal.
    rewrite filter_app, length_app, Hreq.
    destruct print; [rewrite logs_are_not_requests |]; reflexivity.
Qed.

(** C5. Whatever the pages the provider cuts its answer into, when the
    pages put together are the objects of the bucket whose key starts with
    the prefix, in listing order, the enumerator returns the keys of exactly
    those objects, in that order, and when asked for archived objects only,
    the keys of exactly those of them whose storage class is GLACIER.  It
    makes one request per page. *)
Theorem enumerate_is_pagination_transparent
    (store : list S3Object) pages s s' fuel :
  paged s3 bucket prefix None s pages s' ->
  List.concat pages = filter (has_prefix prefix) store ->
  List.length pages <= fuel ->
  outcome (list_objects s3 fuel bucket prefix glacier print s)
  = Returned (map Key (if glacier
                       then filter is_archived
                                   (filter (has_prefix prefix) store)
                       else filter (has_prefix prefix) store))
  /\ final (list_objects s3 fuel bucket prefix glacier print s) = s'
  /\ List.length
       (filter is_request
               (events (list_objects s3 fuel bucket prefix glacier print s)))
     = List.length pages.
Proof.
  intros Hpaged Hstore Hfuel.
  destruct (list_objects_loop_spec _ _ _ _ Hpaged fuel [] Hfuel)
    as (ev & Hrun & Hreq).
  unfold list_objects. rewrite Hrun. cbn.
  rewrite Hstore. repeat split. exact Hreq.
Qed.

End EnumeratorFacts.

Lemma enumerate_is_pagination_transparent_witness :
  outcome (list_objects Fake.client 3 "b" "logs/" true false five_logs)
  = Returned ["logs/a"; "logs/c"; "logs/d"]
  /\ final (list_objects Fake.client 3 "b" "logs/" true false five_logs)
     = five_logs
  /\ List.length
       (filter is_request
          (events (list_objects Fake.client 3 "b" "logs/" true false
                     five_logs)))
     = 3.
Proof.
  apply (enumerate_is_pagination_transparent Fake.client "b" "logs/" true
           false (map Fake.to_object (Fake.entries five_logs))
           [ map Fake.to_object [Fake.glacier "logs/a" 0;
                                 Fake.standard "logs/b"];
             map Fake.to_object [Fake.glacier "logs/c" 0;
                                 Fake.glacier "logs/d" 0];
             map Fake.to_object [Fake.standard "logs/e"] ]
           five_logs five_logs 3).
  - apply (paged_more Fake.client "b" "logs/" None five_logs five_logs
             {| Contents := Some (map Fake.to_object
                                    [Fake.glacier "logs/a" 0;
                                     Fake.standard "logs/b"]);
                NextContinuationToken := Some "xx" |} "xx");
      [reflexivity | reflexivity |].
    apply (paged_more Fake.client "b" "logs/" (Some "xx") five_logs five_logs
             {| Contents := Some (map Fake.to_object
                                    [Fake.glacier "logs/c" 0;
                                     Fake.glacier "logs/d" 0]);
                NextContinuationToken := Some "xxxx" |} "xxxx");
      [reflexivity | reflexivity |].
    apply (paged_last Fake.client "b" "logs/" (Some "xxxx") five_logs
             five_logs
             {| Contents := Some (map Fake.to_object
                                    [Fake.standard "logs/e"]);
                NextContinuationToken := None |});
      reflexivity.
  - reflexivity.
  - apply Nat.le_refl.
Defined.

(** * The checks of [--days] *)

Lemma decimal_is_digit c : is_decimal_point c = true -> is_digit_point c = true.
Proof. intros H. unfold is_digit_point. rewrite H. reflexivity. Qed.

Lemma decimal_is_digit_string ds cps :
  decimal_string ds cps -> digit_string ds cps.
Proof.
  intros (Hcp & Hne & Hall & _). repeat split; try assumption.
  eapply Forall_impl; [| exact Hall]. intros c. apply decimal_is_digit.
Qed.

Lemma str_isdigit_iff ds :
  str_isdigit ds = true <-> exists cps, digit_string ds cps.
Proof.
  unfold str_isdigit, digit_string. split.
  - destruct (code_points ds) as [[| c cs] |]; try discriminate.
    intros Hall. exists (c :: cs). repeat split; [discriminate |].
    apply Forall_forall. apply forallb_forall. exact Hall.
  - intros (cps & -> & Hne & Hall). destruct cps as [| c cs]; [contradiction |].
    apply forallb_forall. apply Forall_forall. exact Hall.
Qed.

(** The script's check of [--days] accepts exactly the non-empty strings
    of digit characters. *)
Lemma days_accepted_iff d :
  days_accepted d = true <-> exists ds cps, d = Some ds /\ digit_string ds cps.
Proof.
  unfold days_accepted. destruct d as [ds |].
  - split.
    + intros H. apply andb_true_iff in H. destruct H as (_ & H).
      apply str_isdigit_iff in H. destruct H as (cps & H).
      exists ds, cps. split; [reflexivity | exact H].
    + intros (ds' & cps & Hds & Hdigits). inversion Hds; subst ds'.
      assert (His : str_isdigit ds = true)
        by (apply str_isdigit_iff; exists cps; exact Hdigits).
      rewrite His, andb_true_r.
      destruct ds; [discriminate His | reflexivity].
  - split; [discriminate | intros (ds & cps & Hds & _); discriminate].
Qed.

Lemma leading_decimals_all cps :
  Forall (fun c => is_decimal_point c = true) cps <->
  leading_decimals cps = List.length cps.
Proof.
  induction cps as [| c cps IH]; cbn [leading_decimals List.length].
  - split; [reflexivity | constructor].
  - split.
    + intros H. inversion H as [| c' cps' Hc Hrest]; subst.
      rewrite Hc. f_equal. apply IH. exact Hrest.
    + destruct (is_decimal_point c) eqn:Hc; [| discriminate].
      intros H. injection H as H. constructor; [exact Hc | apply IH, H].
Qed.

(** [int] on the strings the check lets through. *)
Lemma int_of_decimal_string ds cps :
  decimal_string ds cps -> int_of_str ds = inr (number_of cps).
Proof.
  intros (Hcp & Hne & Hall & Hlen). unfold int_of_str. rewrite Hcp.
  apply leading_decimals_all in Hall. rewrite Hall.
  destruct (4300 <? List.length cps)%nat eqn:Hlimit;
    [apply Nat.ltb_lt in Hlimit; lia |].
  rewrite Nat.eqb_refl.
  destruct cps as [| c cs]; [contradiction | reflexivity].
Qed.

Lemma int_of_other_digit_string ds cps :
  digit_string ds cps -> ~ decimal_string ds cps ->
  exists msg, int_of_str ds = inl (ValueError msg).
Proof.
  intros (Hcp & Hne & _) Hnot. unfold int_of_str. rewrite Hcp.
  destruct (4300 <? leading_decimals cps)%nat eqn:Hlimit;
    [eexists; reflexivity |].
  destruct ((leading_decimals cps =? List.length cps)
            && (0 <? leading_decimals cps))%nat eqn:Hwhole;
    [| eexists; reflexivity].
  exfalso. apply Hnot.
  apply andb_true_iff in Hwhole. destruct Hwhole as (Hall & _).
  apply Nat.eqb_eq in Hall. apply Nat.ltb_ge in Hlimit.
  repeat split; try assumption.
  - apply leading_decimals_all. exact Hall.
  - lia.
Qed.

Section MainFacts.

Context {sigma : Type}.
Variable s3 : S3Client sigma.

Lemma days_and_tier_rejects args (s : sigma) :
  days_accepted (days args) = false ->
  days_and_tier args s
  = ([], s, Raised (AssertionError "--days must be set to an integer")).
Proof.
  intros Hno. unfold days_and_tier, assert. rewrite Hno. reflexivity.
Qed.

Lemma days_and_tier_refuses args ds e (s : sigma) :
  days args = Some ds ->
  days_accepted (days args) = true ->
  int_of_str ds = inl e ->
  days_and_tier args s = ([], s, Raised e).
Proof.
  intros Hds Hyes Hint. unfold days_and_tier, assert.
  rewrite Hyes, Hds, Hint. reflexivity.
Qed.

Lemma days_and_tier_run args ds d (s : sigma) :
  days args = Some ds ->
  days_accepted (days args) = true ->
  int_of_str ds = inr d ->
  days_and_tier args s
  = match tier args with
    | None =>
        ([EvLog Debug (msg_days d)], s,
         Raised (AssertionError "--tier must be set"))
    | Some t =>
        ([EvLog Debug (msg_days d);
          EvLog Debug (Text ("Restore retrieval tier: " ++ Tier_str t)%string)],
         s, Returned (d, t))
    end.
Proof.
  intros Hds Hyes Hint. unfold days_and_tier, assert.
  rewrite Hyes, Hds, Hint.
  destruct (tier args) as [t |]; reflexivity.
Qed.

Lemma accepted_of_digit_string args ds cps :
  days args = Some ds -> digit_string ds cps ->
  days_accepted (days args) = true.
Proof.
  intros Hds Hdigits. apply days_accepted_iff.
  exists ds, cps. split; assumption.
Qed.

(** The script after its two opening debug lines. *)
Lemma main_after_prelude fuel args s :
  op args = Restore \/ op args = Transit ->
  exists k : Z * Tier -> M sigma unit,
    main s3 fuel args s
    = (prelude args ++ events (bind (days_and_tier args) k s),
       final (bind (days_and_tier args) k s),
       outcome (bind (days_and_tier args) k s)).
Proof.
  intros [Hop | Hop]; unfold main; rewrite Hop; eexists.
  all: rewrite (bind_returned (log _ _) _ s [_] s tt eq_refl).
  all: rewrite (bind_returned (log _ _) _ s [_] s tt eq_refl).
  all: reflexivity.
Qed.

(** C6, as the script has it.  For [restore] and [transit] the checks of
    [--days] come first after the two opening debug lines, and a run they
    stop has made no request and ends with exit status 1.  (1) When
    [--days] is absent or is not a non-empty string of digit characters,
    the assertion stops the run.  (2) When it is such a string but not one
    of at most 4300 decimal digits (it holds a digit character that is no
    decimal digit, or too many digits), [int] stops the run with a
    [ValueError].  (3) When it is a non-empty string of at most 4300
    decimal digits, of any script and zero included, the run goes on: its
    next event is the debug line with the number the string denotes. *)
Theorem days_are_checked_before_any_request fuel args s :
  op args = Restore \/ op args = Transit ->
  ((forall ds cps, days args = Some ds -> ~ digit_string ds cps) ->
   main s3 fuel args s
   = (prelude args, s,
      Raised (AssertionError "--days must be set to an integer"))
   /\ exit_status (outcome (main s3 fuel args s)) = Some 1%Z
   /\ filter is_request (events (main s3 fuel args s)) = [])
  /\ (forall ds cps,
        days args = Some ds ->
        digit_string ds cps ->
        ~ decimal_string ds cps ->
        exists msg,
          main s3 fuel args s = (prelude args, s, Raised (ValueError msg))
          /\ exit_status (outcome (main s3 fuel args s)) = Some 1%Z
          /\ filter is_request (events (main s3 fuel args s)) = [])
  /\ (forall ds cps,
        days args = Some ds ->
        decimal_string ds cps ->
        exists rest,
          events (main s3 fuel args s)
          = prelude args ++ EvLog Debug (msg_days (number_of cps)) :: rest).
Proof.
  intros Hop.
  destruct (main_after_prelude fuel args s Hop) as (k & Hmain).
  rewrite Hmain. split; [| split].
  - intros Hbad.
    assert (Hno : days_accepted (days args) = false).
    { destruct (days_accepted (days args)) eqn:Hacc; [| reflexivity].
      exfalso. apply days_accepted_iff in Hacc.
      destruct Hacc as (ds & cps & Hds & Hdigits).
      exact (Hbad ds cps Hds Hdigits). }
    rewrite (bind_raised _ k _ _ _ _ (days_and_tier_rejects args s Hno)).
    cbn [events final outcome fst snd]. rewrite app_nil_r.
    repeat split.
  - intros ds cps Hds Hdigits Hnot.
    pose proof (accepted_of_digit_string args ds cps Hds Hdigits) as Hyes.
    destruct (int_of_other_digit_string ds cps Hdigits Hnot) as (msg & Hint).
    exists msg.
    rewrite (bind_raised _ k _ _ _ _
               (days_and_tier_refuses args ds _ s Hds Hyes Hint)).
    cbn [events final outcome fst snd]. rewrite app_nil_r.
    repeat split.
  - intros ds cps Hds Hdecimal.
    pose proof (accepted_of_digit_string args ds cps Hds
                  (decimal_is_digit_string ds cps Hdecimal)) as Hyes.
    pose proof (int_of_decimal_string ds cps Hdecimal) as Hint.
    destruct (bind_events (days_and_tier args) k s) as (rest' & Hbind).
    cbn [events fst]. rewrite Hbind.
    rewrite (days_and_tier_run args ds _ s Hds Hyes Hint).
    destruct (tier args); cbn [events fst app]; eexists; reflexivity.
Qed.

End MainFacts.

(** C6, as stated, fails for [--days 0]: the string does not denote a
    positive integer, yet the check lets it through and the run lists the
    bucket and asks for restores of zero days. *)
Lemma zero_days_pass_the_check :
  let r := main Fake.client 1 (restore_args (Some "0")) two_keys in
  int_of_str "0" = inr 0%Z
  /\ outcome r = Returned tt
  /\ exit_status (outcome r) = Some 0%Z
  /\ filter is_request (events r)
     = [EvRequest (ListObjectsV2 "b" "logs/" None);
        restore_request "b" "logs/a" 0 Standard;
        restore_request "b" "logs/b" 0 Standard].
Proof. repeat split. Qed.

Lemma ones_points n : code_points (ones n) = Some (repeat 49%N n).
Proof.
  induction n as [| n IH]; [reflexivity |].
  cbn [ones repeat code_points].
  change (byte "1" <? 128)%N with true. cbv iota.
  rewrite IH. reflexivity.
Qed.

Lemma days_are_checked_before_any_request_witness :
  (* a word: the assertion *)
  main Fake.client 1 (restore_args (Some "abc")) two_keys
  = (prelude (restore_args (Some "abc")), two_keys,
     Raised (AssertionError "--days must be set to an integer"))
  (* a superscript, and 4301 digits: [int] *)
  /\ (exists msg,
        main Fake.client 1 (restore_args (Some superscript_two)) two_keys
        = (prelude (restore_args (Some superscript_two)), two_keys,
           Raised (ValueError msg)))
  /\ (exists msg,
        main Fake.client 1 (restore_args (Some (ones 4301))) two_keys
        = (prelude (restore_args (Some (ones 4301))), two_keys,
           Raised (ValueError msg)))
  (* decimal digits of two scripts: the run goes on *)
  /\ (exists rest,
        events (main Fake.client 1 (restore_args (Some "14")) two_keys)
        = prelude (restore_args (Some "14"))
          ++ EvLog Debug (msg_days 14) :: rest)
  /\ (exists rest,
        events (main Fake.client 1 (restore_args (Some arabic_three))
                  two_keys)
        = prelude (restore_args (Some arabic_three))
          ++ EvLog Debug (msg_days 3) :: rest).
Proof.
  split; [| split; [| split; [| split]]].
  - apply (proj1 (days_are_checked_before_any_request Fake.client 1
                    (restore_args (Some "abc")) two_keys
                    (or_introl eq_refl))).
    intros ds cps Hds (Hcp & _ & Hall). inversion Hds; subst ds.
    inversion Hcp; subst cps.
    inversion Hall as [| c cs Hc _]. discriminate Hc.
  - destruct (proj1 (proj2 (days_are_checked_before_any_request Fake.client 1
                              (restore_args (Some superscript_two)) two_keys
                              (or_introl eq_refl)))
                superscript_two [178%N] eq_refl)
      as (msg & Hrun & _).
    + repeat split; [discriminate | repeat constructor].
    + intros (_ & _ & Hall & _).
      inversion Hall as [| c cs Hc _]. discriminate Hc.
    + exists msg. exact Hrun.
  - destruct (proj1 (proj2 (days_are_checked_before_any_request Fake.client 1
                              (restore_args (Some (ones 4301))) two_keys
                              (or_introl eq_refl)))
                (ones 4301) (repeat 49%N 4301) eq_refl)
      as (msg & Hrun & _).
    + split; [apply ones_points | split; [discriminate |]].
      apply Forall_forall. intros c Hc.
      apply repeat_spec in Hc. subst c. reflexivity.
    + intros (_ & _ & _ & Hlen). rewrite repeat_length in Hlen. lia.
    + exists msg. exact Hrun.
  - apply (proj2 (proj2 (days_are_checked_before_any_request Fake.client 1
                           (restore_args (Some "14")) two_keys
                           (or_introl eq_refl)))
             "14" [49%N; 52%N] eq_refl).
    repeat split; [discriminate | repeat constructor | cbn; lia].
  - apply (proj2 (proj2 (days_are_checked_before_any_request Fake.client 1
                           (restore_args (Some arabic_three)) two_keys
                           (or_introl eq_refl)))
             arabic_three [1635%N] eq_refl).
    repeat split; [discriminate | repeat constructor | cbn; lia].
Defined.

(** * Further properties of the script *)

Section RunFacts.

Context {sigma : Type}.

Lemma bind_run {A B} (m : M sigma A) (f : A -> M sigma B) s :
  bind m f s
  = match m s with
    | (ev, s1, Returned a) =>
        (ev ++ events (f a s1), final (f a s1), outcome (f a s1))
    | (ev, s1, Raised e) => (ev, s1, Raised e)
    | (ev, s1, OutOfFuel) => (ev, s1, OutOfFuel)
    end.
Proof.
  unfold bind. destruct (m s) as [[ev s1] [a | e |]]; try reflexivity.
  destruct (f a s1) as [[ev' s2] r]. reflexivity.
Qed.

Lemma requests_of_app (evs evs' : list Event) :
  requests_of (evs ++ evs') = requests_of evs ++ requests_of evs'.
Proof.
  induction evs as [| [r | lvl msg | secs] evs IH]; cbn;
    rewrite ?IH; reflexivity.
Qed.

Lemma requests_of_key_logs (l : list string) :
  requests_of (map (fun key => EvLog Debug (Text key)) l) = [].
Proof. induction l; [reflexivity | assumption]. Qed.

Lemma logs_of_key_logs (l : list string) :
  filter is_log (map (fun key => EvLog Debug (Text key)) l)
  = map (fun key => EvLog Debug (Text key)) l.
Proof. induction l as [| k l IH]; cbn; rewrite ?IH; reflexivity. Qed.

End RunFacts.

Section EnumeratorMore.

Context {sigma : Type}.
Variable s3 : S3Client sigma.
Variable bucket : string.
Variable prefix : string.
Variable glacier print : bool.

Local Abbreviation loop fuel :=
  (list_objects_loop s3 fuel bucket prefix glacier print).

Lemma list_objects_loop_raises fuel token keys s s1 e :
  list_objects_v2 s3 bucket prefix token s = (s1, inl e) ->
  loop (S fuel) token keys s
  = ([EvRequest (ListObjectsV2 bucket prefix token)], s1, Raised e).
Proof.
  intros Hlist. cbn [list_objects_loop]. unfold bind at 1.
  unfold call_list_objects_v2, request. rewrite Hlist. reflexivity.
Qed.

Lemma list_objects_loop_logs token s pages s' :
  paged s3 bucket prefix token s pages s' ->
  forall fuel keys,
    List.length pages <= fuel ->
    filter is_log (events (loop fuel token keys s))
    = if print
      then map (fun key => EvLog Debug (Text key))
               (selected glacier (List.concat pages))
      else [].
Proof.
  induction 1 as [token s s' rsp Hlist Hlast
                 | token s s1 rsp next pages s' Hlist Hnext Hrest IH];
    intros [| fuel] keys Hfuel; cbn in Hfuel; try lia;
    rewrite (list_objects_loop_step _ _ _ _ _ _ _ _ _ _ _ Hlist); cbn zeta.
  - rewrite Hlast. cbn [events fst filter is_log List.concat].
    rewrite app_nil_r. destruct print; [apply logs_of_key_logs | reflexivity].
  - rewrite Hnext. cbn [events fst filter is_log List.concat].
    rewrite filter_app, IH by lia.
    destruct print; [| reflexivity].
    rewrite logs_of_key_logs, selected_app, map_app. reflexivity.
Qed.

(** X1. When asked to print, the enumerator logs the keys it returns, one
    debug line per key, in order, and logs nothing else; when not asked, it
    logs nothing. *)
Theorem enumerate_logs_what_it_returns pages s s' fuel :
  paged s3 bucket prefix None s pages s' ->
  List.length pages <= fuel ->
  exists keys,
    outcome (list_objects s3 fuel bucket prefix glacier print s)
    = Returned keys
    /\ filter is_log
         (events (list_objects s3 fuel bucket prefix glacier print s))
       = if print then map (fun key => EvLog Debug (Text key)) keys else [].
Proof.
  intros Hpaged Hfuel.
  destruct (list_objects_loop_spec s3 bucket prefix glacier print _ _ _ _
              Hpaged fuel [] Hfuel) as (ev & Hrun & _).
  exists (selected glacier (List.concat pages)). split.
  - unfold list_objects. rewrite Hrun. reflexivity.
  - apply (list_objects_loop_logs _ _ _ _ Hpaged). exact Hfuel.
Qed.

Lemma list_objects_loop_fails token s pages s' e :
  paged_then_fails s3 bucket prefix token s pages s' e ->
  forall fuel keys,
    List.length pages < fuel ->
    final (loop fuel token keys s) = s'
    /\ outcome (loop fuel token keys s) = Raised e
    /\ List.length (requests_of (events (loop fuel token keys s)))
       = S (List.length pages).
Proof.
  induction 1 as [token s s' e Hlist
                 | token s s1 rsp next pages s' e Hlist Hnext Hrest IH];
    intros [| fuel] keys Hfuel; cbn in Hfuel; try lia.
  - rewrite (list_objects_loop_raises _ _ _ _ _ _ Hlist). repeat split.
  - rewrite (list_objects_loop_step _ _ _ _ _ _ _ _ _ _ _ Hlist). cbn zeta.
    rewrite Hnext.
    destruct (IH fuel (keys ++ selected glacier (objects_of rsp)))
      as (Hfin & Hout & Hreq); [lia |].
    cbn [events final outcome fst snd requests_of List.length].
    rewrite requests_of_app, length_app, Hreq.
    repeat split; try assumption.
    destruct print; [rewrite requests_of_key_logs |]; reflexivity.
Qed.

(** X2. A listing request that fails is not retried: when, after some
    pages, the provider answers the next request with an exception, the
    enumerator ends with that exception, having made one request per page
    served and the failed one, and returns no key. *)
Theorem enumerate_fails_fast pages s s' e fuel :
  paged_then_fails s3 bucket prefix None s pages s' e ->
  List.length pages < fuel ->
  final (list_objects s3 fuel bucket prefix glacier print s) = s'
  /\ outcome (list_objects s3 fuel bucket prefix glacier print s) = Raised e
  /\ List.length
       (requests_of
          (events (list_objects s3 fuel bucket prefix glacier print s)))
     = S (List.length pages).
Proof.
  intros Hfails Hfuel. unfold list_objects.
  apply (list_objects_loop_fails _ _ _ _ _ Hfails). exact Hfuel.
Qed.

Lemma list_objects_loop_requests fuel :
  forall token keys s,
    Forall (is_listing_of bucket prefix)
           (requests_of (events (loop fuel token keys s))).
Proof.
  induction fuel as [| fuel IH]; intros token keys s; [constructor |].
  destruct (list_objects_v2 s3 bucket prefix token s) as [s1 [e | rsp]]
    eqn:Hlist.
  - rewrite (list_objects_loop_raises _ _ _ _ _ _ Hlist).
    repeat constructor. exists token. reflexivity.
  - rewrite (list_objects_loop_step _ _ _ _ _ _ _ _ _ _ _ Hlist). cbn zeta.
    assert (Hlogs : requests_of
                      (if print
                       then map (fun key => EvLog Debug (Text key))
                                (selected glacier (objects_of rsp))
                       else []) = [])
      by (destruct print; [apply requests_of_key_logs | reflexivity]).
    destruct (NextContinuationToken rsp) as [next |];
      cbn [events fst requests_of]; constructor;
      try (exists token; reflexivity).
    + rewrite requests_of_app, Hlogs. apply IH.
    + rewrite Hlogs. constructor.
Qed.

(** X4. Whatever the provider answers and however long it goes on, the
    enumerator only ever sends listing requests for the bucket and prefix it
    was given: it never restores, copies or reads the metadata of an
    object. *)
Theorem enumerate_only_lists fuel s :
  Forall (is_listing_of bucket prefix)
         (requests_of
            (events (list_objects s3 fuel bucket prefix glacier print s))).
Proof. unfold list_objects. apply list_objects_loop_requests. Qed.

End EnumeratorMore.

(** X3. From the same state of the provider, the archived-only enumeration
    returns the keys of the GLACIER objects among those the unfiltered
    enumeration returns: every key of the first is a key of the second, and
    both leave the provider in the same state. *)
Theorem archived_only_is_a_subset
    {sigma : Type} (s3 : S3Client sigma) (bucket prefix : string)
    (print print' : bool) pages s s' fuel :
  paged s3 bucket prefix None s pages s' ->
  List.length pages <= fuel ->
  outcome (list_objects s3 fuel bucket prefix true print s)
  = Returned (map Key (filter is_archived (List.concat pages)))
  /\ outcome (list_objects s3 fuel bucket prefix false print' s)
     = Returned (map Key (List.concat pages))
  /\ incl (map Key (filter is_archived (List.concat pages)))
          (map Key (List.concat pages))
  /\ final (list_objects s3 fuel bucket prefix true print s)
     = final (list_objects s3 fuel bucket prefix false print' s).
Proof.
  intros Hpaged Hfuel.
  destruct (list_objects_loop_spec s3 bucket prefix true print _ _ _ _
              Hpaged fuel [] Hfuel) as (ev & Hrun & _).
  destruct (list_objects_loop_spec s3 bucket prefix false print' _ _ _ _
              Hpaged fuel [] Hfuel) as (ev' & Hrun' & _).
  unfold list_objects. rewrite Hrun, Hrun'. repeat split.
  intros key Hin. apply in_map_iff in Hin.
  destruct Hin as (obj & Hkey & Hobj). apply filter_In in Hobj.
  apply in_map_iff. exists obj. split; [exact Hkey | apply Hobj].
Qed.

Lemma five_logs_paged :
  paged Fake.client "b" "logs/" None five_logs
    [ map Fake.to_object [Fake.glacier "logs/a" 0; Fake.standard "logs/b"];
      map Fake.to_object [Fake.glacier "logs/c" 0; Fake.glacier "logs/d" 0];
      map Fake.to_object [Fake.standard "logs/e"] ]
    five_logs.
Proof.
  apply (paged_more Fake.client "b" "logs/" None five_logs five_logs
           {| Contents := Some (map Fake.to_object
                                  [Fake.glacier "logs/a" 0;
                                   Fake.standard "logs/b"]);
              NextContinuationToken := Some "xx" |} "xx");
    [reflexivity | reflexivity |].
  apply (paged_more Fake.client "b" "logs/" (Some "xx") five_logs five_logs
           {| Contents := Some (map Fake.to_object
                                  [Fake.glacier "logs/c" 0;
                                   Fake.glacier "logs/d" 0]);
              NextContinuationToken := Some "xxxx" |} "xxxx");
    [reflexivity | reflexivity |].
  apply (paged_last Fake.client "b" "logs/" (Some "xxxx") five_logs five_logs
           {| Contents := Some (map Fake.to_object [Fake.standard "logs/e"]);
              NextContinuationToken := None |});
    reflexivity.
Qed.

Lemma enumerate_logs_what_it_returns_witness :
  exists keys,
    outcome (list_objects Fake.client 3 "b" "logs/" true true five_logs)
    = Returned keys
    /\ filter is_log
         (events (list_objects Fake.client 3 "b" "logs/" true true five_logs))
       = map (fun key => EvLog Debug (Text key)) keys.
Proof.
  exact (enumerate_logs_what_it_returns Fake.client "b" "logs/" true true
           _ five_logs five_logs 3 five_logs_paged (Nat.le_refl 3)).
Defined.

Lemma enumerate_fails_fast_witness :
  list_objects Fake.client 1 "nope" "logs/" true false five_logs
  = ([EvRequest (ListObjectsV2 "nope" "logs/" None)], five_logs,
     Raised Fake.no_such_bucket)
  /\ final (list_objects Fake.client 1 "nope" "logs/" true false five_logs)
     = five_logs
  /\ outcome (list_objects Fake.client 1 "nope" "logs/" true false five_logs)
     = Raised Fake.no_such_bucket
  /\ List.length
       (requests_of
          (events (list_objects Fake.client 1 "nope" "logs/" true false
                     five_logs)))
     = 1.
Proof.
  split; [reflexivity |].
  apply (enumerate_fails_fast Fake.client "nope" "logs/" true false
           [] five_logs five_logs Fake.no_such_bucket 1).
  - apply fails_now. reflexivity.
  - apply Nat.lt_0_succ.
Defined.

Lemma archived_only_is_a_subset_witness :
  outcome (list_objects Fake.client 3 "b" "logs/" true false five_logs)
  = Returned ["logs/a"; "logs/c"; "logs/d"]
  /\ outcome (list_objects Fake.client 3 "b" "logs/" false false five_logs)
     = Returned ["logs/a"; "logs/b"; "logs/c"; "logs/d"; "logs/e"]
  /\ incl ["logs/a"; "logs/c"; "logs/d"]
          ["logs/a"; "logs/b"; "logs/c"; "logs/d"; "logs/e"]
  /\ final (list_objects Fake.client 3 "b" "logs/" true false five_logs)
     = final (list_objects Fake.client 3 "b" "logs/" false false five_logs).
Proof.
  exact (archived_only_is_a_subset Fake.client "b" "logs/" false false
           _ five_logs five_logs 3 five_logs_paged (Nat.le_refl 3)).
Defined.

(** ** More on the Restore Requester *)

Section RestoreMore.

Context {sigma : Type}.
Variable s3 : S3Client sigma.
Variable bucket : string.
Variable d : Z.
Variable t : Tier.

Local Abbreviation restore keys on_conflict on_error :=
  (restore_glacier_objects s3 bucket keys d t on_conflict on_error).

Local Abbreviation sent key := (RestoreObject bucket key d (Tier_str t)).

Lemma restore_sent key on_conflict on_error rest s s1 :
  restore_object s3 bucket key d (Tier_str t) s = (s1, inr tt) ->
  restore (key :: rest) on_conflict on_error s
  = ([EvLog Debug (msg_restoring key); EvRequest (sent key);
      EvLog Debug (msg_restore_sent key)]
     ++ events (restore rest on_conflict on_error s1),
     final (restore rest on_conflict on_error s1),
     outcome (restore rest on_conflict on_error s1)).
Proof.
  intros Hreq. cbn [restore_glacier_objects]. rewrite bind_run.
  destruct on_conflict;
    unfold try_except, restore_impl, bind, call_restore_object, request,
      log, emit;
    rewrite Hreq; reflexivity.
Qed.

Lemma restore_broken key on_conflict on_error rest s s1 e :
  restore_object s3 bucket key d (Tier_str t) s = (s1, inl e) ->
  is_client_error e = false ->
  restore (key :: rest) on_conflict on_error s
  = ([EvLog Debug (msg_restoring key); EvRequest (sent key)], s1, Raised e).
Proof.
  intros Hreq Hother. cbn [restore_glacier_objects]. rewrite bind_run.
  destruct on_conflict;
    unfold try_except, restore_impl, bind, call_restore_object, request,
      log, emit;
    rewrite Hreq; destruct e; try discriminate; reflexivity.
Qed.

Lemma restore_requests keys on_conflict on_error :
  forall s,
  exists n,
    requests_of (events (restore keys on_conflict on_error s))
    = firstn n (map (fun key => sent key) keys)
    /\ (outcome (restore keys on_conflict on_error s) = Returned tt ->
        requests_of (events (restore keys on_conflict on_error s))
        = map (fun key => sent key) keys).
Proof.
  induction keys as [| k keys' IH]; intros s.
  - exists 0. split; reflexivity.
  - destruct (restore_object s3 bucket k d (Tier_str t) s)
      as [s1 [e | []]] eqn:Hreq.
    + destruct e as [code msg | what | msg | key | msg].
      * rewrite (restore_refused _ _ _ _ _ _ _ _ _ _ _ _ Hreq).
        destruct (IH s1) as (n & Hn & Hall).
        destruct on_conflict;
          [destruct (code =? "RestoreAlreadyInProgress")%string;
           [| destruct on_error] |].
        all: unfold restore_request.
        all: cbn [events outcome fst snd app requests_of].
        all: try (exists (S n); cbn [map firstn];
                  split; [rewrite Hn; reflexivity
                         | intros Hout; rewrite (Hall Hout); reflexivity]).
        all: exists 1; split; [reflexivity | discriminate].
      * rewrite (restore_broken _ _ _ _ _ _ _ Hreq eq_refl).
        exists 1. split; [reflexivity | discriminate].
      * rewrite (restore_broken _ _ _ _ _ _ _ Hreq eq_refl).
        exists 1. split; [reflexivity | discriminate].
      * rewrite (restore_broken _ _ _ _ _ _ _ Hreq eq_refl).
        exists 1. split; [reflexivity | discriminate].
      * rewrite (restore_broken _ _ _ _ _ _ _ Hreq eq_refl).
        exists 1. split; [reflexivity | discriminate].
    + rewrite (restore_sent _ _ _ _ _ _ Hreq).
      destruct (IH s1) as (n & Hn & Hall).
      cbn [events outcome fst snd app requests_of].
      exists (S n). cbn [map firstn].
      split; [rewrite Hn; reflexivity
             | intros Hout; rewrite (Hall Hout); reflexivity].
Qed.

(** X6. Whatever the provider answers and whatever the two policies, the
    restore requester sends nothing but restore requests, for keys of the
    batch, in batch order, each at most once, with the days and the tier it
    was given: the requests of a run are the first few of the batch, and all
    of them when the run returns. *)
Theorem restore_requests_follow_the_batch keys on_conflict on_error s :
  exists n,
    requests_of (events (restore keys on_conflict on_error s))
    = firstn n (map (fun key => RestoreObject bucket key d (Tier_str t)) keys)
    /\ (outcome (restore keys on_conflict on_error s) = Returned tt ->
        requests_of (events (restore keys on_conflict on_error s))
        = map (fun key => RestoreObject bucket key d (Tier_str t)) keys).
Proof.
  destruct (restore_requests keys on_conflict on_error s) as (n & Hn & Hall).
  exists n. split.
  - exact Hn.
  - intros Hout. apply Hall. exact Hout.
Qed.

Lemma restore_default_returns keys :
  forall s,
    (forall s0 key s1 e,
        In key keys ->
        restore_object s3 bucket key d (Tier_str t) s0 = (s1, inl e) ->
        is_client_error e = true) ->
    outcome (restore keys true true s) = Returned tt.
Proof.
  induction keys as [| k keys' IH]; intros s Honly; [reflexivity |].
  assert (Hrest : forall s0 key s1 e,
             In key keys' ->
             restore_object s3 bucket key d (Tier_str t) s0 = (s1, inl e) ->
             is_client_error e = true)
    by (intros s0 key s1 e Hin; apply Honly; right; exact Hin).
  destruct (restore_object s3 bucket k d (Tier_str t) s)
    as [s1 [e | []]] eqn:Hreq.
  - pose proof (Honly s k s1 e (or_introl eq_refl) Hreq) as Hclient.
    destruct e as [code msg | | | |]; try discriminate.
    rewrite (restore_refused _ _ _ _ _ _ _ _ _ _ _ _ Hreq).
    destruct (code =? "RestoreAlreadyInProgress")%string;
      cbn [outcome snd]; apply IH; exact Hrest.
  - rewrite (restore_sent _ _ _ _ _ _ Hreq). cbn [outcome snd].
    apply IH; exact Hrest.
Qed.

(** X5. Under the default policies, one key's failure does not stop the
    others: when the provider answers each request of the batch either with
    success or with a [ClientError], of whatever code, the requester
    returns normally and has sent exactly one request per key, in batch
    order. *)
Theorem restore_keys_are_independent keys s :
  (forall s0 key s1 e,
      In key keys ->
      restore_object s3 bucket key d (Tier_str t) s0 = (s1, inl e) ->
      is_client_error e = true) ->
  outcome (restore keys true true s) = Returned tt
  /\ requests_of (events (restore keys true true s))
     = map (fun key => RestoreObject bucket key d (Tier_str t)) keys.
Proof.
  intros Honly.
  pose proof (restore_default_returns keys s Honly) as Hout.
  split; [exact Hout |].
  destruct (restore_requests keys true true s) as (n & _ & Hall).
  apply Hall. exact Hout.
Qed.

(** X7. The conflict policy: when the provider answers the request of a
    key with [RestoreAlreadyInProgress], the requester logs the error as a
    warning and goes on with the remaining keys if
    [continue_on_restore_already_in_progress] is set, whatever
    [continue_on_other_errors]; if it is not set, the call ends there with
    that error and the remaining keys are not requested. *)
Theorem conflict_policy
    keys pre k post on_conflict on_error s ev1 s1 s2 msg :
  keys = pre ++ k :: post ->
  restore pre on_conflict on_error s = (ev1, s1, Returned tt) ->
  restore_object s3 bucket k d (Tier_str t) s1
  = (s2, inl (ClientError "RestoreAlreadyInProgress" msg)) ->
  restore keys on_conflict on_error s
  = if on_conflict then
      (ev1 ++ [EvLog Debug (msg_restoring k); restore_request bucket k d t;
               EvLog Warning
                 (Exc (ClientError "RestoreAlreadyInProgress" msg))]
           ++ events (restore post on_conflict on_error s2),
       final (restore post on_conflict on_error s2),
       outcome (restore post on_conflict on_error s2))
    else
      (ev1 ++ [EvLog Debug (msg_restoring k); restore_request bucket k d t],
       s2, Raised (ClientError "RestoreAlreadyInProgress" msg)).
Proof.
  intros Hkeys Hpre Hreq.
  rewrite Hkeys, restore_app, (bind_returned _ _ _ _ _ _ Hpre).
  rewrite (restore_refused _ _ _ _ _ _ _ _ _ _ _ _ Hreq).
  change ("RestoreAlreadyInProgress" =? "RestoreAlreadyInProgress")%string
    with true.
  destruct on_conflict; reflexivity.
Qed.

(** X8. Only [ClientError] is ever caught: when the request of a key
    raises any other exception, the call ends there with that exception
    whatever the two policies, and the remaining keys are not requested. *)
Theorem restore_does_not_catch_other_exceptions
    keys pre k post on_conflict on_error s ev1 s1 s2 e :
  keys = pre ++ k :: post ->
  restore pre on_conflict on_error s = (ev1, s1, Returned tt) ->
  restore_object s3 bucket k d (Tier_str t) s1 = (s2, inl e) ->
  is_client_error e = false ->
  restore keys on_conflict on_error s
  = (ev1 ++ [EvLog Debug (msg_restoring k); restore_request bucket k d t],
     s2, Raised e).
Proof.
  intros Hkeys Hpre Hreq Hother.
  rewrite Hkeys, restore_app, (bind_returned _ _ _ _ _ _ Hpre).
  rewrite (restore_broken _ _ _ _ _ _ _ Hreq Hother). reflexivity.
Qed.

End RestoreMore.

Module FakeMore.

Import Fake.

Lemma update_error key f es es' err :
  update key f es = Some (es', Some err) -> exists e, f e = inl err.
Proof.
  revert es'. induction es as [| e es IH]; intros es'; [discriminate |].
  cbn [update]. destruct (ekey e =? key)%string.
  - destruct (f e) as [err' | e'] eqn:Hf; intros H; inversion H; subst.
    exists e. exact Hf.
  - destruct (update key f es) as [[rest' r] |]; [| discriminate].
    intros H; inversion H; subst. eapply IH. reflexivity.
Qed.

Lemma restore_raises_client_errors bucket key days tier st st' e :
  restore_object bucket key days tier st = (st', inl e) ->
  is_client_error e = true.
Proof.
  unfold restore_object, apply, no_such_bucket, no_such_key.
  destruct (negb (bucket =? bucket_name st)%string);
    [intros H; inversion H; reflexivity |].
  match goal with
  | |- context [update key ?f (entries st)] =>
      destruct (update key f (entries st)) as [[es [err |]] |] eqn:Hup
  end; intros H; inversion H; subst; try reflexivity.
  destruct (update_error _ _ _ _ _ Hup) as (e0 & He0).
  destruct (erestoring e0); [inversion He0; reflexivity |].
  destruct (negb (eclass e0 =? "GLACIER")%string);
    inversion He0; reflexivity.
Qed.

End FakeMore.

Lemma restore_keys_are_independent_witness :
  outcome (restore_glacier_objects Fake.client "b"
             ["logs/a"; "logs/gone"; "logs/b"] 5 Standard true true
             one_restoring)
  = Returned tt
  /\ requests_of
       (events (restore_glacier_objects Fake.client "b"
                  ["logs/a"; "logs/gone"; "logs/b"] 5 Standard true true
                  one_restoring))
     = [RestoreObject "b" "logs/a" 5 "Standard";
        RestoreObject "b" "logs/gone" 5 "Standard";
        RestoreObject "b" "logs/b" 5 "Standard"].
Proof.
  apply (restore_keys_are_independent Fake.client "b" 5 Standard
           ["logs/a"; "logs/gone"; "logs/b"] one_restoring).
  intros s0 key s1 e _ Hreq.
  exact (FakeMore.restore_raises_client_errors "b" key 5 "Standard" s0 s1 e
           Hreq).
Defined.

Lemma conflict_policy_witness :
  restore_glacier_objects Fake.client "b" ["logs/b"; "logs/a"] 5 Standard
    false true one_restoring
  = (events (restore_glacier_objects Fake.client "b" ["logs/b"] 5 Standard
               false true one_restoring)
     ++ [EvLog Debug (msg_restoring "logs/a");
         restore_request "b" "logs/a" 5 Standard],
     final (restore_glacier_objects Fake.client "b" ["logs/b"] 5 Standard
              false true one_restoring),
     Raised (ClientError "RestoreAlreadyInProgress"
               "Object restore is already in progress")).
Proof.
  exact (conflict_policy Fake.client "b" 5 Standard
           ["logs/b"; "logs/a"] ["logs/b"] "logs/a" [] false true
           one_restoring
           (events (restore_glacier_objects Fake.client "b" ["logs/b"] 5
                      Standard false true one_restoring))
           (final (restore_glacier_objects Fake.client "b" ["logs/b"] 5
                     Standard false true one_restoring))
           (final (restore_glacier_objects Fake.client "b" ["logs/b"] 5
                     Standard false true one_restoring))
           "Object restore is already in progress"
           eq_refl eq_refl eq_refl).
Defined.

Lemma restore_does_not_catch_other_exceptions_witness :
  restore_glacier_objects Offline.client "b" ["logs/a"; "logs/b"] 5 Standard
    true true tt
  = ([EvLog Debug (msg_restoring "logs/a");
      restore_request "b" "logs/a" 5 Standard],
     tt, Raised Offline.unreachable).
Proof.
  exact (restore_does_not_catch_other_exceptions Offline.client "b" 5
           Standard ["logs/a"; "logs/b"] [] "logs/a" ["logs/b"] true true
           tt [] tt tt Offline.unreachable eq_refl eq_refl eq_refl eq_refl).
Defined.

(** ** More on the Transition Poller *)

Section PollerMore.

Context {sigma : Type}.
Variable s3 : S3Client sigma.
Variable bucket : string.
Variable storage_class : StorageClass.
Variable poll_seconds : Z.
Variable keys : list string.

Local Abbreviation transit_key' := (transit_key s3 bucket storage_class).
Local Abbreviation transit_keys' := (transit_keys s3 bucket storage_class).
Local Abbreviation transit_once' := (transit_once s3 bucket storage_class).
Local Abbreviation poll fuel :=
  (transit_glacier_objects s3 fuel bucket keys storage_class poll_seconds).

Lemma transit_key_requests key flag s :
  requests_of (events (transit_key' key flag s))
  = [ListObjectsV2 bucket key None]
  \/ requests_of (events (transit_key' key flag s))
     = [ListObjectsV2 bucket key None;
        CopyObject bucket bucket key key (StorageClass_str storage_class)].
Proof.
  unfold_transit_key. split_paths; cbn; auto.
Qed.

Lemma transit_keys_requests ks :
  incl ks keys ->
  forall flag s,
    Forall (poller_request bucket storage_class keys)
           (requests_of (events (transit_keys' ks flag s))).
Proof.
  induction ks as [| k ks IH]; intros Hincl flag s; [constructor |].
  assert (Hk : In k keys) by (apply Hincl; left; reflexivity).
  assert (Hks : incl ks keys) by (intros x Hx; apply Hincl; right; exact Hx).
  cbn [transit_keys]. rewrite bind_run.
  assert (Hhead : Forall (poller_request bucket storage_class keys)
                         (requests_of (events (transit_key' k flag s)))).
  { destruct (transit_key_requests k flag s) as [-> | ->];
      repeat constructor; exists k; auto. }
  destruct (transit_key' k flag s) as [[ev s1] [f | e |]];
    cbn [events fst] in *; try exact Hhead.
  rewrite requests_of_app. apply Forall_app. split; [exact Hhead |].
  apply IH. exact Hks.
Qed.

(** X9. Whatever the provider answers and however long the loop goes on,
    the poller only ever lists a key of its batch (the key as prefix, no
    continuation token) or copies a key of its batch onto itself, in the
    same bucket, with the storage class it was given: it never touches
    another key or bucket and never restores or reads metadata. *)
Theorem poller_only_touches_its_batch fuel s :
  Forall (poller_request bucket storage_class keys)
         (requests_of (events (poll fuel s))).
Proof.
  revert s. induction fuel as [| fuel IH]; intros s; [constructor |].
  rewrite poll_step.
  pose proof (transit_keys_requests keys (incl_refl keys) false s) as Hcycle.
  unfold transit_once.
  destruct (transit_keys' keys false s) as [[ev s1] [[|] | e |]];
    cbn [events fst] in *; try exact Hcycle.
  destruct (poll_seconds <? 0)%Z; cbn [events fst]; [exact Hcycle |].
  rewrite requests_of_app. apply Forall_app. split; [exact Hcycle |].
  cbn [requests_of]. apply IH.
Qed.

Lemma no_sleep_filter (evs : list Event) :
  existsb is_sleep evs = false -> filter is_sleep evs = [].
Proof.
  induction evs as [| ev evs IH]; [reflexivity |].
  cbn. destruct (is_sleep ev); [discriminate | exact IH].
Qed.

Lemma cycle_has_no_sleep s :
  filter is_sleep (events (transit_once' keys s)) = [].
Proof. apply no_sleep_filter. apply transit_keys_no_sleep. Qed.

(** X10. The only wait of the poller is the one between two cycles, and it
    lasts what was asked: the sleeps of a run are all of [poll_seconds]
    seconds, a run that ends has slept fewer times than the cycles it was
    allowed, and nothing sleeps unless [poll_seconds] is non-negative. *)
Theorem poller_sleeps_the_interval fuel s :
  exists n,
    filter is_sleep (events (poll fuel s)) = repeat (EvSleep poll_seconds) n
    /\ n <= fuel
    /\ (outcome (poll fuel s) <> OutOfFuel -> n < fuel)
    /\ (0 < n -> (0 <= poll_seconds)%Z).
Proof.
  revert s. induction fuel as [| fuel IH]; intros s.
  - exists 0. repeat split; try lia. intros H. exfalso. apply H. reflexivity.
  - rewrite poll_step. pose proof (cycle_has_no_sleep s) as Hquiet.
    destruct (transit_once' keys s) as [[ev s1] [[|] | e |]];
      cbn [events outcome fst snd] in *.
    2-4: exists 0; rewrite Hquiet; repeat split; lia.
    destruct (poll_seconds <? 0)%Z eqn:Hneg; cbn [events outcome fst snd].
    + exists 0. rewrite Hquiet. repeat split; lia.
    + apply Z.ltb_ge in Hneg.
      destruct (IH s1) as (n & Hn & Hle & Hlt & _).
      exists (S n).
      rewrite filter_app, Hquiet. cbn [app filter is_sleep].
      rewrite Hn. cbn [repeat]. repeat split; try lia.
      intros Hout. specialize (Hlt Hout). lia.
Qed.


(** X12. A cycle that runs through reports a pending key exactly when it
    logged a warning for an [InvalidObjectState] error. *)
Theorem cycle_is_pending_iff_refused s ev s' pending :
  transit_once s3 bucket storage_class keys s = (ev, s', Returned pending) ->
  pending = true
  <-> exists msg,
        In (EvLog Warning (Exc (ClientError "InvalidObjectState" msg))) ev.
Proof.
  intros Hcycle.
  pose proof (transit_keys_flag _ _ _ _ _ _ _ _ _ Hcycle) as Hflag.
  cbn [orb] in Hflag. rewrite Hflag, existsb_exists. split.
  - intros (x & Hin & Hx).
    destruct x as [r | [] [txt | [code msg | | | |]] | secs];
      try discriminate.
    cbn in Hx. apply String.eqb_eq in Hx. subst code.
    exists msg. exact Hin.
  - intros (msg & Hin). eexists. split; [exact Hin | reflexivity].
Qed.

End PollerMore.


Lemma cycle_is_pending_iff_refused_witness :
  exists msg,
    In (EvLog Warning (Exc (ClientError "InvalidObjectState" msg)))
       (events (transit_once Fake.client "b" SCStandard ["logs/a"; "logs/b"]
                  two_keys)).
Proof.
  apply (proj1 (cycle_is_pending_iff_refused Fake.client "b" SCStandard
                  ["logs/a"; "logs/b"] two_keys _ _ true eq_refl)).
  reflexivity.
Defined.

Section PollerStuck.

Context {sigma : Type}.
Variable s3 : S3Client sigma.
Variable bucket : string.
Variable storage_class : StorageClass.
Variable poll_seconds : Z.
Variable keys : list string.

Local Abbreviation transit_key' := (transit_key s3 bucket storage_class).
Local Abbreviation transit_keys' := (transit_keys s3 bucket storage_class).
Local Abbreviation poll fuel :=
  (transit_glacier_objects s3 fuel bucket keys storage_class poll_seconds).

Lemma attempt_ends_run key flag s pending s' :
  attempt_ends s3 bucket storage_class key s pending s' ->
  exists ev, transit_key' key flag s = (ev, s', Returned (flag || pending)).
Proof.
  intros Hends.
  inversion Hends as [s0 s1 rsp obj Hlist Hc Hcls
                     | s0 s1 rsp obj s2 Hlist Hc Hcls Hcopy
                     | s0 s1 rsp obj s2 msg Hlist Hc Hcls Hcopy
                     | s0 s1 msg Hlist]; subst.
  - rewrite orb_false_r. eexists.
    eapply transit_key_skips; eassumption.
  - rewrite orb_false_r. eexists. unfold_transit_key.
    rewrite Hlist, Hc. cbn. rewrite Hcls. cbn. rewrite Hcopy. reflexivity.
  - rewrite orb_true_r. eexists. unfold_transit_key.
    rewrite Hlist, Hc. cbn. rewrite Hcls. cbn. rewrite Hcopy. reflexivity.
  - rewrite orb_true_r. eexists. unfold_transit_key.
    rewrite Hlist. reflexivity.
Qed.

Variable steady : sigma -> Prop.
Variable stuck_key : string.

Hypothesis every_attempt_ends : forall s key,
  steady s -> In key keys ->
  exists pending s',
    attempt_ends s3 bucket storage_class key s pending s'
    /\ steady s'
    /\ (key = stuck_key -> pending = true).

Lemma stuck_cycle ks :
  incl ks keys ->
  forall flag s,
    steady s ->
    exists ev s' flag',
      transit_keys' ks flag s = (ev, s', Returned flag')
      /\ steady s'
      /\ (flag = true -> flag' = true)
      /\ (In stuck_key ks -> flag' = true).
Proof.
  induction ks as [| k ks IH]; intros Hincl flag s Hs.
  - exists [], s, flag. repeat split; [exact Hs | tauto | intros []].
  - assert (Hk : In k keys) by (apply Hincl; left; reflexivity).
    assert (Hks : incl ks keys)
      by (intros x Hx; apply Hincl; right; exact Hx).
    destruct (every_attempt_ends s k Hs Hk) as (p & s1 & Hends & Hs1 & Hp).
    destruct (attempt_ends_run k flag s p s1 Hends) as (ev1 & Hrun).
    destruct (IH Hks (flag || p) s1 Hs1) as (ev2 & s2 & f & Hrest & Hs2 & Hup & Hin).
    exists (ev1 ++ ev2), s2, f.
    cbn [transit_keys]. rewrite (bind_returned _ _ _ _ _ _ Hrun), Hrest.
    repeat split; [exact Hs2 | |].
    + intros ->. apply Hup. reflexivity.
    + intros [-> | Hin']; [| apply Hin; exact Hin'].
      apply Hup. rewrite (Hp eq_refl). apply orb_true_r.
Qed.


End PollerStuck.


Section PollerBroken.

Context {sigma : Type}.
Variable s3 : S3Client sigma.
Variable bucket : string.
Variable storage_class : StorageClass.
Variable poll_seconds : Z.

Lemma transit_key_breaks key flag s s' e ev :
  attempt_fails s3 bucket storage_class key s s' e ev ->
  is_client_error e = false ->
  transit_key s3 bucket storage_class key flag s = (ev, s', Raised e).
Proof.
  intros Hfail Hother.
  unfold transit_key, try_except, transit_try, bind, call_list_objects_v2,
    call_copy_object, request.
  inversion Hfail as [s0 s0' e0 Hlist | s0 s1 rsp obj s0' e0 Hlist Hc Hcls Hcopy];
    subst; rewrite Hlist.
  - destruct e; try discriminate; reflexivity.
  - rewrite Hc. cbn. rewrite Hcls. cbn. rewrite Hcopy. cbn.
    destruct e; try discriminate; reflexivity.
Qed.

(** X14. The poller catches nothing but [ClientError]: in any cycle, when
    the listing or the copy of a key raises another exception, the loop
    ends at once with it; no warning is logged, no later key is tried and
    no later cycle runs. *)
Theorem poller_does_not_catch_other_exceptions
    keys pre k post n s evs s1 ev1 s2 flag s' e ev_k fuel :
  keys = pre ++ k :: post ->
  pending_cycles s3 bucket storage_class keys poll_seconds n s evs s1 ->
  transit_keys s3 bucket storage_class pre false s1
  = (ev1, s2, Returned flag) ->
  attempt_fails s3 bucket storage_class k s2 s' e ev_k ->
  is_client_error e = false ->
  n < fuel ->
  transit_glacier_objects s3 fuel bucket keys storage_class poll_seconds s
  = (evs ++ ev1 ++ ev_k, s', Raised e).
Proof.
  intros Hkeys Hpend Hpre Hfail Hother Hfuel.
  apply (poll_aborts _ _ _ _ _ _ _ _ _ _ _ _ _ Hpend); [| exact Hfuel].
  rewrite Hkeys. eapply transit_once_raises; [exact Hpre |].
  apply transit_key_breaks; assumption.
Qed.

End PollerBroken.

Lemma poller_does_not_catch_other_exceptions_witness :
  transit_glacier_objects Offline.client 3 "b" ["logs/a"; "logs/b"]
    SCStandard 3600 tt
  = ([relist "b" "logs/a"], tt, Raised Offline.unreachable).
Proof.
  exact (poller_does_not_catch_other_exceptions Offline.client "b" SCStandard
           3600 ["logs/a"; "logs/b"] [] "logs/a" ["logs/b"] 0 tt [] tt []
           tt false tt Offline.unreachable [relist "b" "logs/a"] 3
           eq_refl
           (pending_none Offline.client "b" SCStandard ["logs/a"; "logs/b"]
              3600 tt)
           eq_refl
           (fails_listing Offline.client "b" SCStandard "logs/a" tt tt
              Offline.unreachable eq_refl)
           eq_refl
           (Nat.lt_0_succ 2)).
Defined.

(** ** The status checks of [check_restore] *)

Section CheckMore.

Context {sigma : Type}.
Variable s3 : S3Client sigma.
Variable bucket : string.

Lemma check_all_app pre post s :
  check_all s3 bucket (pre ++ post) s
  = bind (check_all s3 bucket pre) (fun _ => check_all s3 bucket post) s.
Proof.
  revert s. induction pre as [| k pre IH]; intros s.
  - cbn [app check_all]. rewrite bind_ret_l. reflexivity.
  - cbn [app check_all]. rewrite bind_assoc.
    apply bind_ext. intros _ s'. apply IH.
Qed.

Lemma check_restore_status_run key s :
  check_restore_status s3 bucket key s
  = match head_object s3 bucket key s with
    | (s1, inl e) => ([EvRequest (HeadObject bucket key)], s1, Raised e)
    | (s1, inr rsp) =>
        (EvRequest (HeadObject bucket key)
         :: match RestoreHeader rsp with
            | Some status => [EvLog Debug (msg_restore_status key status)]
            | None => []
            end,
         s1, Returned tt)
    end.
Proof.
  unfold check_restore_status, bind, call_head_object, request, log, emit, ret.
  destruct (head_object s3 bucket key s) as [s1 [e | rsp]]; [reflexivity |].
  destruct (RestoreHeader rsp); reflexivity.
Qed.

(** X15. The loop over the keys of [check_restore] has no handler: when
    the metadata request of a key raises, whatever the exception, the run
    ends there with it and the remaining keys are not checked. *)
Theorem failed_status_check_stops_the_rest
    keys pre k post s ev1 s1 s2 e :
  keys = pre ++ k :: post ->
  check_all s3 bucket pre s = (ev1, s1, Returned tt) ->
  head_object s3 bucket k s1 = (s2, inl e) ->
  check_all s3 bucket keys s
  = (ev1 ++ [EvRequest (HeadObject bucket k)], s2, Raised e).
Proof.
  intros Hkeys Hpre Hhead.
  rewrite Hkeys, check_all_app, (bind_returned _ _ _ _ _ _ Hpre).
  cbn [check_all]. rewrite bind_run, check_restore_status_run, Hhead.
  reflexivity.
Qed.

(** X16. The status checks send nothing but metadata requests, for the
    keys of the list, in order, each at most once: the requests of a run
    are the first few of the list, and all of them when the run returns. *)
Theorem status_checks_follow_the_list keys s :
  exists n,
    requests_of (events (check_all s3 bucket keys s))
    = firstn n (map (HeadObject bucket) keys)
    /\ (outcome (check_all s3 bucket keys s) = Returned tt ->
        requests_of (events (check_all s3 bucket keys s))
        = map (HeadObject bucket) keys).
Proof.
  revert s. induction keys as [| k keys' IH]; intros s.
  - exists 0. split; reflexivity.
  - cbn [check_all]. rewrite bind_run, check_restore_status_run.
    destruct (head_object s3 bucket k s) as [s1 [e | rsp]].
    + exists 1. split; [reflexivity | discriminate].
    + destruct (IH s1) as (n & Hn & Hall).
      exists (S n). cbn [events outcome fst snd map firstn].
      destruct (RestoreHeader rsp); cbn [app requests_of];
        (split; [rewrite Hn; reflexivity
                | intros Hout; rewrite (Hall Hout); reflexivity]).
Qed.

End CheckMore.

Lemma failed_status_check_stops_the_rest_witness :
  check_all Fake.client "b" ["logs/a"; "logs/gone"; "logs/b"] one_restoring
  = ([EvRequest (HeadObject "b" "logs/a");
      EvLog Debug (msg_restore_status "logs/a" "ongoing-request=true");
      EvRequest (HeadObject "b" "logs/gone")],
     one_restoring, Raised (ClientError "404" "Not Found")).
Proof.
  exact (failed_status_check_stops_the_rest Fake.client "b"
           ["logs/a"; "logs/gone"; "logs/b"] ["logs/a"] "logs/gone"
           ["logs/b"] one_restoring
           [EvRequest (HeadObject "b" "logs/a");
            EvLog Debug (msg_restore_status "logs/a" "ongoing-request=true")]
           one_restoring one_restoring (ClientError "404" "Not Found")
           eq_refl eq_refl eq_refl).
Defined.

(** ** The four operations of the script *)

Section MainMore.

Context {sigma : Type}.
Variable s3 : S3Client sigma.

Lemma prelude_has_no_request args : requests_of (prelude args) = [].
Proof. reflexivity. Qed.

Lemma main_from_prelude fuel args s (body : M sigma unit) :
  main s3 fuel args s
  = bind (log Debug (Text ("Bucket: " ++ bucket args)%string))
         (fun _ =>
            bind (log Debug
                    (Text ("Prefix: "
                           ++ prefix_or_empty (prefix args))%string))
                 (fun _ => body)) s ->
  main s3 fuel args s
  = (prelude args ++ events (body s), final (body s), outcome (body s)).
Proof.
  intros ->.
  rewrite (bind_returned (log _ _) _ s [_] s tt eq_refl).
  rewrite (bind_returned (log _ _) _ s [_] s tt eq_refl).
  reflexivity.
Qed.

Lemma main_list fuel args s :
  op args = List ->
  main s3 fuel args s
  = (prelude args
     ++ events (bind (list_objects s3 fuel (bucket args)
                        (prefix_or_empty (prefix args)) true true)
                     (fun _ =>
                        log Info (Text "Done listing Glacier objects!")) s),
     final (bind (list_objects s3 fuel (bucket args)
                    (prefix_or_empty (prefix args)) true true)
                 (fun _ => log Info (Text "Done listing Glacier objects!"))
                 s),
     outcome (bind (list_objects s3 fuel (bucket args)
                      (prefix_or_empty (prefix args)) true true)
                   (fun _ => log Info (Text "Done listing Glacier objects!"))
                   s)).
Proof.
  intros Hop. apply main_from_prelude. unfold main. rewrite Hop. reflexivity.
Qed.

Lemma main_check fuel args s :
  op args = CheckRestore ->
  main s3 fuel args s
  = (prelude args
     ++ events (bind (list_objects s3 fuel (bucket args)
                        (prefix_or_empty (prefix args)) false false)
                     (check_all s3 (bucket args)) s),
     final (bind (list_objects s3 fuel (bucket args)
                    (prefix_or_empty (prefix args)) false false)
                 (check_all s3 (bucket args)) s),
     outcome (bind (list_objects s3 fuel (bucket args)
                      (prefix_or_empty (prefix args)) false false)
                   (check_all s3 (bucket args)) s)).
Proof.
  intros Hop. apply main_from_prelude. unfold main. rewrite Hop. reflexivity.
Qed.

(** X18. The [list] operation only reads: whatever the provider answers,
    every request of the run is a listing of the bucket and prefix given on
    the command line (the empty prefix when none was given). *)
Theorem list_operation_only_lists fuel args s :
  op args = List ->
  Forall (is_listing_of (bucket args) (prefix_or_empty (prefix args)))
         (requests_of (events (main s3 fuel args s))).
Proof.
  intros Hop. rewrite (main_list fuel args s Hop). cbn [events fst].
  rewrite requests_of_app, prelude_has_no_request, bind_run. cbn [app].
  pose proof (list_objects_loop_requests s3 (bucket args)
                (prefix_or_empty (prefix args)) true true fuel None [] s)
    as Hlist.
  unfold list_objects.
  destruct (list_objects_loop s3 fuel (bucket args)
              (prefix_or_empty (prefix args)) true true None [] s)
    as [[ev s1] [keys | e |]]; cbn [events fst] in *; try exact Hlist.
  rewrite requests_of_app. cbn. rewrite app_nil_r. exact Hlist.
Qed.

Lemma check_all_requests bucket keys :
  forall s,
    Forall (fun r => exists key, r = HeadObject bucket key)
           (requests_of (events (check_all s3 bucket keys s))).
Proof.
  induction keys as [| k keys' IH]; intros s; [constructor |].
  cbn [check_all]. rewrite bind_run, check_restore_status_run.
  destruct (head_object s3 bucket k s) as [s1 [e | rsp]].
  - repeat constructor. exists k. reflexivity.
  - cbn [events fst]. constructor; [exists k; reflexivity |].
    destruct (RestoreHeader rsp); cbn [app requests_of]; apply IH.
Qed.

(** X19. The [check_restore] operation only reads: every request of the
    run is either a listing of the bucket and prefix given or a metadata
    request for a key of that bucket; it never restores or copies. *)
Theorem check_restore_operation_only_reads fuel args s :
  op args = CheckRestore ->
  Forall (fun r =>
            is_listing_of (bucket args) (prefix_or_empty (prefix args)) r
            \/ exists key, r = HeadObject (bucket args) key)
         (requests_of (events (main s3 fuel args s))).
Proof.
  intros Hop. rewrite (main_check fuel args s Hop). cbn [events fst].
  rewrite requests_of_app, prelude_has_no_request, bind_run. cbn [app].
  pose proof (list_objects_loop_requests s3 (bucket args)
                (prefix_or_empty (prefix args)) false false fuel None [] s)
    as Hlist.
  assert (Hleft :
            forall rs,
              Forall (is_listing_of (bucket args)
                        (prefix_or_empty (prefix args))) rs ->
              Forall (fun r =>
                        is_listing_of (bucket args)
                          (prefix_or_empty (prefix args)) r
                        \/ exists key, r = HeadObject (bucket args) key) rs)
    by (intros rs H; eapply Forall_impl; [| exact H]; intros r Hr; left;
        exact Hr).
  unfold list_objects.
  destruct (list_objects_loop s3 fuel (bucket args)
              (prefix_or_empty (prefix args)) false false None [] s)
    as [[ev s1] [keys | e |]]; cbn [events fst] in *;
    try (apply Hleft; exact Hlist).
  rewrite requests_of_app. apply Forall_app. split; [apply Hleft, Hlist |].
  eapply Forall_impl; [| apply check_all_requests].
  intros r Hr. right. exact Hr.
Qed.

Lemma days_and_tier_decimal args ds cps (s : sigma) :
  days args = Some ds ->
  decimal_string ds cps ->
  days_and_tier args s
  = match tier args with
    | None =>
        ([EvLog Debug (msg_days (number_of cps))], s,
         Raised (AssertionError "--tier must be set"))
    | Some t =>
        ([EvLog Debug (msg_days (number_of cps));
          EvLog Debug (Text ("Restore retrieval tier: " ++ Tier_str t)%string)],
         s, Returned (number_of cps, t))
    end.
Proof.
  intros Hds Hdecimal.
  apply (days_and_tier_run args ds (number_of cps) s Hds).
  - apply (accepted_of_digit_string args ds cps Hds).
    apply decimal_is_digit_string. exact Hdecimal.
  - apply int_of_decimal_string. exact Hdecimal.
Qed.

Lemma main_restore fuel args s :
  op args = Restore ->
  main s3 fuel args s
  = (prelude args
     ++ events (bind (days_and_tier args)
                  (fun dt =>
                     bind (list_objects s3 fuel (bucket args)
                             (prefix_or_empty (prefix args)) true false)
                       (fun keys =>
                          bind (restore_glacier_objects s3 (bucket args) keys
                                  (fst dt) (snd dt) true true)
                            (fun _ =>
                               log Info
                                 (Text "Done listing and restoring Glacier objects!"))))
                  s),
     final (bind (days_and_tier args)
              (fun dt =>
                 bind (list_objects s3 fuel (bucket args)
                         (prefix_or_empty (prefix args)) true false)
                   (fun keys =>
                      bind (restore_glacier_objects s3 (bucket args) keys
                              (fst dt) (snd dt) true true)
                        (fun _ =>
                           log Info
                             (Text "Done listing and restoring Glacier objects!"))))
              s),
     outcome (bind (days_and_tier args)
                (fun dt =>
                   bind (list_objects s3 fuel (bucket args)
                           (prefix_or_empty (prefix args)) true false)
                     (fun keys =>
                        bind (restore_glacier_objects s3 (bucket args) keys
                                (fst dt) (snd dt) true true)
                          (fun _ =>
                             log Info
                               (Text "Done listing and restoring Glacier objects!"))))
                s)).
Proof.
  intros Hop. apply main_from_prelude. unfold main. rewrite Hop. reflexivity.
Qed.

(** X20. Both checks that follow those of [--days] also come before any
    request: with [--days] a non-empty string of at most 4300 decimal
    digits, a [restore] or [transit] run without [--tier] ends with the
    assertion's error right after the debug line of the days, and a
    [transit] run with [--tier] but without [--storage-class] ends with the
    assertion's error right after the debug line of the tier; neither has
    made a request. *)
Theorem missing_tier_or_class_stops_the_run fuel args ds cps s :
  days args = Some ds ->
  decimal_string ds cps ->
  (op args = Restore \/ op args = Transit ->
   tier args = None ->
   main s3 fuel args s
   = (prelude args ++ [EvLog Debug (msg_days (number_of cps))], s,
      Raised (AssertionError "--tier must be set")))
  /\ (forall t,
        op args = Transit ->
        tier args = Some t ->
        storage_class args = None ->
        main s3 fuel args s
        = (prelude args
           ++ [EvLog Debug (msg_days (number_of cps));
               EvLog Debug
                 (Text ("Restore retrieval tier: " ++ Tier_str t)%string)],
           s, Raised (AssertionError "--storage-class must be set"))).
Proof.
  intros Hds Hdecimal. split.
  - intros Hop Htier.
    destruct (main_after_prelude s3 fuel args s Hop) as (k & Hmain).
    rewrite Hmain, bind_run, (days_and_tier_decimal args ds cps s Hds Hdecimal),
      Htier.
    reflexivity.
  - intros t Hop Htier Hclass.
    rewrite (main_from_prelude fuel args s
               (bind (days_and_tier args)
                  (fun dt =>
                     bind (assert (is_some (storage_class args))
                             "--storage-class must be set")
                       (fun _ => raise
                                   (AssertionError
                                      "--storage-class must be set"))))).
    + rewrite bind_run, (days_and_tier_decimal args ds cps s Hds Hdecimal),
        Htier, Hclass.
      reflexivity.
    + unfold main. rewrite Hop, Hclass. reflexivity.
Qed.

End MainMore.

Section MainCompose.

Context {sigma : Type}.
Variable s3 : S3Client sigma.

Lemma days_and_tier_is_silent args (s : sigma) :
  requests_of (events (days_and_tier args s)) = []
  /\ final (days_and_tier args s) = s.
Proof.
  unfold days_and_tier, assert, bind, log, emit, ret, raise, lift.
  destruct (days_accepted (days args)); [| split; reflexivity].
  destruct (days args) as [ds |]; [| split; reflexivity].
  destruct (int_of_str ds) as [e | d]; [split; reflexivity |].
  destruct (tier args); split; reflexivity.
Qed.

Lemma restore_requests_are_restores bucket keys d t on_conflict on_error s :
  Forall (fun r => exists key, r = RestoreObject bucket key d (Tier_str t))
         (requests_of
            (events (restore_glacier_objects s3 bucket keys d t on_conflict
                       on_error s))).
Proof.
  destruct (restore_requests s3 bucket d t keys on_conflict on_error s)
    as (n & Hn & _).
  rewrite Hn.
  assert (Hall : Forall (fun r => exists key,
                             r = RestoreObject bucket key d (Tier_str t))
                        (map (fun key => RestoreObject bucket key d
                                           (Tier_str t)) keys)).
  { apply Forall_forall. intros r Hin. apply in_map_iff in Hin.
    destruct Hin as (key & <- & _). exists key. reflexivity. }
  rewrite <- (firstn_skipn n) in Hall. apply Forall_app in Hall.
  apply Hall.
Qed.

(** X21. The [restore] operation never copies an object nor reads its
    metadata: whatever the arguments and the provider's answers, every
    request of the run is a listing of the bucket and prefix given or a
    restore request for a key of that bucket. *)
Theorem restore_operation_never_copies fuel args s :
  op args = Restore ->
  Forall (fun r =>
            is_listing_of (bucket args) (prefix_or_empty (prefix args)) r
            \/ exists key d t, r = RestoreObject (bucket args) key d t)
         (requests_of (events (main s3 fuel args s))).
Proof.
  intros Hop. rewrite (main_restore s3 fuel args s Hop). cbn [events fst].
  rewrite requests_of_app, prelude_has_no_request, bind_run. cbn [app].
  destruct (days_and_tier_is_silent args s) as (Hsilent & Hsame).
  destruct (days_and_tier args s) as [[ev0 s0] [dt | e |]];
    cbn [events final fst snd] in *; try (rewrite Hsilent; constructor).
  subst s0. rewrite requests_of_app, Hsilent, bind_run. cbn [app].
  pose proof (list_objects_loop_requests s3 (bucket args)
                (prefix_or_empty (prefix args)) true false fuel None [] s)
    as Hlist.
  assert (Hleft :
            forall rs,
              Forall (is_listing_of (bucket args)
                        (prefix_or_empty (prefix args))) rs ->
              Forall (fun r =>
                        is_listing_of (bucket args)
                          (prefix_or_empty (prefix args)) r
                        \/ exists key d t,
                            r = RestoreObject (bucket args) key d t) rs)
    by (intros rs H; eapply Forall_impl; [| exact H]; intros r Hr; left;
        exact Hr).
  unfold list_objects.
  destruct (list_objects_loop s3 fuel (bucket args)
              (prefix_or_empty (prefix args)) true false None [] s)
    as [[ev s1] [keys | e |]]; cbn [events fst] in *;
    try (apply Hleft; exact Hlist).
  rewrite requests_of_app. apply Forall_app. split; [apply Hleft, Hlist |].
  rewrite bind_run.
  pose proof (restore_requests_are_restores (bucket args) keys (fst dt)
                (snd dt) true true s1) as Hrestore.
  assert (Hright :
            forall rs,
              Forall (fun r => exists key,
                          r = RestoreObject (bucket args) key (fst dt)
                                (Tier_str (snd dt))) rs ->
              Forall (fun r =>
                        is_listing_of (bucket args)
                          (prefix_or_empty (prefix args)) r
                        \/ exists key d t,
                            r = RestoreObject (bucket args) key d t) rs)
    by (intros rs H; eapply Forall_impl; [| exact H];
        intros r (key & ->); right; eauto).
  destruct (restore_glacier_objects s3 (bucket args) keys (fst dt) (snd dt)
              true true s1) as [[ev' s2] [[] | e |]];
    cbn [events fst] in *; try (apply Hright; exact Hrestore).
  rewrite requests_of_app. cbn. rewrite app_nil_r.
  apply Hright. exact Hrestore.
Qed.

(** X22. A [transit] run is the three steps in a row over one batch: with
    [--days] a non-empty string of at most 4300 decimal digits, the tier
    and the storage class given and an interval [time.sleep] takes (at most
    9223372036 seconds), the keys the enumeration returns are the keys the
    requester is given (with the number the days denote, the tier given and
    both policies at their default) and then the keys the poller is given
    (with the storage class and the interval given), each step starting
    from the provider state the step before left; the run ends with the
    summary line. *)
Theorem transit_operation_composes
    fuel args ds cps t sc s evL sL keys evR sR evP sP :
  op args = Transit ->
  days args = Some ds ->
  decimal_string ds cps ->
  tier args = Some t ->
  storage_class args = Some sc ->
  (poll_seconds args <= 9223372036)%Z ->
  list_objects s3 fuel (bucket args) (prefix_or_empty (prefix args)) true
    false s
  = (evL, sL, Returned keys) ->
  restore_glacier_objects s3 (bucket args) keys (number_of cps) t true true
    sL
  = (evR, sR, Returned tt) ->
  transit_glacier_objects s3 fuel (bucket args) keys sc (poll_seconds args) sR
  = (evP, sP, Returned tt) ->
  main s3 fuel args s
  = (prelude args
     ++ [EvLog Debug (msg_days (number_of cps));
         EvLog Debug (Text ("Restore retrieval tier: " ++ Tier_str t)%string);
         EvLog Debug
           (Text ("Transit storage class: " ++ StorageClass_str sc)%string)]
     ++ evL ++ evR ++ evP
     ++ [EvLog Info
           (Text "Done listing, restoring and transiting Glacier objects!")],
     sP, Returned tt).
Proof.
  intros Hop Hds Hdecimal Htier Hclass _ HL HR HP.
  rewrite (main_from_prelude s3 fuel args s
             (bind (days_and_tier args)
                (fun dt =>
                   bind (log Debug
                           (Text ("Transit storage class: "
                                  ++ StorageClass_str sc)%string))
                     (fun _ =>
                        bind (list_objects s3 fuel (bucket args)
                                (prefix_or_empty (prefix args)) true false)
                          (fun keys =>
                             bind (restore_glacier_objects s3 (bucket args)
                                     keys (fst dt) (snd dt) true true)
                               (fun _ =>
                                  bind (transit_glacier_objects s3 fuel
                                          (bucket args) keys sc
                                          (poll_seconds args))
                                    (fun _ =>
                                       log Info
                                         (Text "Done listing, restoring and transiting Glacier objects!")))))))).
  - rewrite bind_run, (days_and_tier_decimal args ds cps s Hds Hdecimal),
      Htier.
    rewrite (bind_returned (log _ _) _ s [_] s tt eq_refl).
    rewrite (bind_returned _ _ _ _ _ _ HL).
    cbn [fst snd].
    rewrite (bind_returned _ _ _ _ _ _ HR).
    rewrite (bind_returned _ _ _ _ _ _ HP).
    reflexivity.
  - unfold main. rewrite Hop, Hclass. cbn [is_some assert].
    apply bind_ext. intros _ s0. apply bind_ext. intros _ s1.
    apply bind_ext. intros dt s2. rewrite bind_ret_l. reflexivity.
Qed.

End MainCompose.

Lemma list_operation_only_lists_witness :
  requests_of
    (events (main Fake.client 3 (args_for List None None None 3600)
               five_logs))
  = [ListObjectsV2 "b" "logs/" None; ListObjectsV2 "b" "logs/" (Some "xx");
     ListObjectsV2 "b" "logs/" (Some "xxxx")]
  /\ Forall (is_listing_of "b" "logs/")
       (requests_of
          (events (main Fake.client 3 (args_for List None None None 3600)
                     five_logs))).
Proof.
  split; [reflexivity |].
  exact (list_operation_only_lists Fake.client 3
           (args_for List None None None 3600) five_logs eq_refl).
Defined.

Lemma check_restore_operation_only_reads_witness :
  Forall (fun r => is_listing_of "b" "logs/" r
                   \/ exists key, r = HeadObject "b" key)
         (requests_of
            (events (main Fake.client 3
                       (args_for CheckRestore None None None 3600)
                       one_restoring))).
Proof.
  exact (check_restore_operation_only_reads Fake.client 3
           (args_for CheckRestore None None None 3600) one_restoring
           eq_refl).
Defined.

Lemma five_is_decimal : decimal_string "5" [53%N].
Proof.
  repeat split; [discriminate | repeat constructor | cbn; lia].
Qed.

Lemma missing_tier_or_class_stops_the_run_witness :
  main Fake.client 3 (args_for Restore (Some "5") None None 3600) two_keys
  = (prelude (args_for Restore (Some "5") None None 3600)
     ++ [EvLog Debug (msg_days 5)],
     two_keys, Raised (AssertionError "--tier must be set"))
  /\ main Fake.client 3 (args_for Transit (Some "5") (Some Bulk) None 3600)
       two_keys
     = (prelude (args_for Transit (Some "5") (Some Bulk) None 3600)
        ++ [EvLog Debug (msg_days 5);
            EvLog Debug (Text "Restore retrieval tier: Bulk")],
        two_keys, Raised (AssertionError "--storage-class must be set")).
Proof.
  split.
  - exact (proj1 (missing_tier_or_class_stops_the_run Fake.client 3
                    (args_for Restore (Some "5") None None 3600) "5"
                    [53%N] two_keys eq_refl five_is_decimal)
             (or_introl eq_refl) eq_refl).
  - exact (proj2 (missing_tier_or_class_stops_the_run Fake.client 3
                    (args_for Transit (Some "5") (Some Bulk) None 3600) "5"
                    [53%N] two_keys eq_refl five_is_decimal)
             Bulk eq_refl eq_refl eq_refl).
Defined.

Lemma restore_operation_never_copies_witness :
  Forall (fun r => is_listing_of "b" "logs/" r
                   \/ exists key d t, r = RestoreObject "b" key d t)
         (requests_of
            (events (main Fake.client 3
                       (args_for Restore (Some "5") (Some Standard) None 3600)
                       two_keys))).
Proof.
  exact (restore_operation_never_copies Fake.client 3
           (args_for Restore (Some "5") (Some Standard) None 3600) two_keys
           eq_refl).
Defined.

Lemma transit_operation_composes_witness :
  outcome (main Fake.client 3
             (args_for Transit (Some "5") (Some Standard) (Some SCStandard)
                60)
             two_keys)
  = Returned tt
  /\ requests_of
       (events (main Fake.client 3
                  (args_for Transit (Some "5") (Some Standard)
                     (Some SCStandard) 60)
                  two_keys))
     = [ListObjectsV2 "b" "logs/" None;
        RestoreObject "b" "logs/a" 5 "Standard";
        RestoreObject "b" "logs/b" 5 "Standard";
        ListObjectsV2 "b" "logs/a" None;
        CopyObject "b" "b" "logs/a" "logs/a" "STANDARD";
        ListObjectsV2 "b" "logs/b" None;
        CopyObject "b" "b" "logs/b" "logs/b" "STANDARD";
        ListObjectsV2 "b" "logs/a" None;
        CopyObject "b" "b" "logs/a" "logs/a" "STANDARD";
        ListObjectsV2 "b" "logs/b" None].
Proof.
  rewrite (transit_operation_composes Fake.client 3
             (args_for Transit (Some "5") (Some Standard) (Some SCStandard)
                60)
             "5" [53%N] Standard SCStandard two_keys
             _ _ ["logs/a"; "logs/b"] _ _ _ _
             eq_refl eq_refl five_is_decimal eq_refl eq_refl
             (proj1 (Z.leb_le 60 9223372036) eq_refl)
             eq_refl eq_refl eq_refl).
  split; reflexivity.
Defined.
